(** * liqpay-ts-zod: the validation schemas of [schemas.ts]

    A shallow embedding of the zod schemas that validate LiqPay payment
    parameters, and the properties of the validation they define.

    The file has these layers:
    - [JS]: the JavaScript values the schemas receive (strings as UTF-16
      code units, numbers as IEEE 754 binary64, objects as finite maps)
      and the built-ins the schemas call ([Number], [isNaN], [<], [>],
      [Number.isInteger]);
    - [Zod]: the parsers of zod 3 the schemas are built from (string,
      number, union, effects, default, nativeEnum, object, safeParse),
      each returning its status and the issues it adds to the context;
    - [Schemas]: the declarations of [schemas.ts], in source order;
    - the vocabulary of the theorems, and the theorems: numbers, single
      fields, objects, then the properties of [CNBSchema]. *)

From Stdlib Require Import ZArith QArith Qround List Bool Ascii String Lia.
From Corelib Require Import SpecFloat.
From stdpp Require Import gmap strings.

Set Warnings "-register-all".
Local Open Scope Z_scope.

(* ===================================================================== *)
(** ** JavaScript values *)
(* ===================================================================== *)

Module JS.

(** A JavaScript string is a sequence of UTF-16 code units. *)
Definition JSString := list N.

(** The code units of an ASCII literal of the source. *)
Definition lit (s : string) : JSString :=
  map N_of_ascii (list_ascii_of_string s).

(** A JavaScript number is an IEEE 754 binary64 value. *)
Definition float64 := spec_float.
Definition prec : Z := 53.
Definition emax : Z := 1024.

Definition NaN : float64 := S754_nan.

(** The number denoted by an integer literal of the source. *)
Definition F (n : Z) : float64 := binary_normalize prec emax n 0 false.

(** The number nearest to [num / den] (ties to even), with sign [s]. *)
Definition round_ratio (s : bool) (num den : positive) : float64 :=
  let '(q, e, l) := SFdiv_core_binary prec emax (Zpos num) 0 (Zpos den) 0 in
  binary_round_aux prec emax s q e l.

(** The number nearest to [m * 10^k], with sign [s]. *)
Definition round_decimal (s : bool) (m : N) (k : Z) : float64 :=
  match m with
  | N0 => S754_zero s
  | Npos p =>
      if 0 <=? k then round_ratio s (p * Z.to_pos (10 ^ k)) 1
      else round_ratio s p (Z.to_pos (10 ^ (- k)))
  end.

(** The mathematical value of a finite number. *)
Definition SF2Q (x : float64) : option Q :=
  match x with
  | S754_zero _ => Some 0%Q
  | S754_finite s m e =>
      let v := if 0 <=? e then inject_Z (Zpos m * 2 ^ e)
               else (Zpos m # Z.to_pos (2 ^ (- e)))%Q in
      Some (if s then Qopp v else v)
  | _ => None
  end.

(** [Number.isInteger]: finite, and equal to its own floor. *)
Definition isInteger (x : float64) : bool :=
  match SF2Q x with
  | Some q => Qeq_bool (inject_Z (Qfloor q)) q
  | None => false
  end.

(** The integer a number denotes, when it denotes one. *)
Definition integer_value (x : float64) : option Z :=
  match SF2Q x with
  | Some q => if Qeq_bool (inject_Z (Qfloor q)) q then Some (Qfloor q) else None
  | None => None
  end.

(** [x < y] on numbers: false when either is NaN, otherwise the order of
    the extended reals. *)
Definition lessThan (x y : float64) : bool :=
  match x, y with
  | S754_nan, _ | _, S754_nan => false
  | S754_infinity sx, S754_infinity sy => sx && negb sy
  | S754_infinity sx, _ => sx
  | _, S754_infinity sy => negb sy
  | _, _ =>
      match SF2Q x, SF2Q y with
      | Some p, Some q => negb (Qle_bool q p)
      | _, _ => false
      end
  end.

Definition greaterThan (x y : float64) : bool := lessThan y x.

(** *** String to number conversion *)

(** WhiteSpace and LineTerminator code units, which [Number] trims. *)
Definition is_StrWhiteSpaceChar (c : N) : bool :=
  existsb (N.eqb c)
    [9; 10; 11; 12; 13; 32; 160; 5760; 8192; 8193; 8194; 8195; 8196; 8197;
     8198; 8199; 8200; 8201; 8202; 8232; 8233; 8239; 8287; 12288; 65279]%N.

Fixpoint trimStart (s : JSString) : JSString :=
  match s with
  | c :: s' => if is_StrWhiteSpaceChar c then trimStart s' else s
  | [] => []
  end.

Definition trim (s : JSString) : JSString :=
  rev (trimStart (rev (trimStart s))).

(** The value of a digit in the given radix. *)
Definition digit_value (radix c : N) : option N :=
  let v :=
    if (48 <=? c)%N && (c <=? 57)%N then Some (c - 48)%N
    else if (97 <=? c)%N && (c <=? 102)%N then Some (c - 87)%N
    else if (65 <=? c)%N && (c <=? 70)%N then Some (c - 55)%N
    else None in
  match v with
  | Some d => if (d <? radix)%N then Some d else None
  | None => None
  end.

(** The longest prefix of digits, its value appended to [acc], and the
    rest of the string. *)
Fixpoint span_digits (radix : N) (acc : N) (n : nat) (s : JSString)
  : N * nat * JSString :=
  match s with
  | c :: s' =>
      match digit_value radix c with
      | Some d => span_digits radix (acc * radix + d)%N (S n) s'
      | None => (acc, n, s)
      end
  | [] => (acc, n, [])
  end.

(** A literal made of digits only, at least one. *)
Definition all_digits (radix : N) (s : JSString) : option N :=
  match span_digits radix 0 0 s with
  | (v, S _, []) => Some v
  | _ => None
  end.

(** ExponentPart, or nothing. *)
Definition exponent_part (s : JSString) : option Z :=
  match s with
  | [] => Some 0
  | c :: s' =>
      if (c =? 101)%N || (c =? 69)%N then
        match s' with
        | 43%N :: ds => option_map Z.of_N (all_digits 10 ds)
        | 45%N :: ds => option_map (fun v => - Z.of_N v) (all_digits 10 ds)
        | ds => option_map Z.of_N (all_digits 10 ds)
        end
      else None
  end.

(** StrUnsignedDecimalLiteral, with the sign already read. *)
Definition unsigned_decimal (sign : bool) (s : JSString) : float64 :=
  if bool_decide (s = lit "Infinity") then S754_infinity sign
  else
    let '(int_v, int_n, r1) := span_digits 10 0 0 s in
    let '(v, frac_n, r2, ok) :=
      match r1 with
      | 46%N :: r =>
          let '(v, n, r2) := span_digits 10 int_v 0 r in
          (v, n, r2, negb (Nat.eqb int_n 0 && Nat.eqb n 0))
      | _ => (int_v, 0%nat, r1, negb (Nat.eqb int_n 0))
      end in
    if ok then
      match exponent_part r2 with
      | Some e => round_decimal sign v (e - Z.of_nat frac_n)
      | None => NaN
      end
    else NaN.

(** StringToNumber: trim, then read a StringNumericLiteral. *)
Definition StringToNumber (s : JSString) : float64 :=
  match trim s with
  | [] => S754_zero false
  | 48%N :: c :: ds =>
      if (c =? 120)%N || (c =? 88)%N then
        match all_digits 16 ds with Some v => F (Z.of_N v) | None => NaN end
      else if (c =? 111)%N || (c =? 79)%N then
        match all_digits 8 ds with Some v => F (Z.of_N v) | None => NaN end
      else if (c =? 98)%N || (c =? 66)%N then
        match all_digits 2 ds with Some v => F (Z.of_N v) | None => NaN end
      else unsigned_decimal false (trim s)
  | 43%N :: ds => unsigned_decimal false ds
  | 45%N :: ds => unsigned_decimal true ds
  | ds => unsigned_decimal false ds
  end.

(** *** Values *)

Inductive JSValue :=
| JUndefined
| JNull
| JBoolean (b : bool)
| JNumber (x : float64)
| JString (s : JSString)
| JArray (l : list JSValue)
| JObject (o : gmap string JSValue).

(** ToNumber. The schemas apply [Number] to strings only; the conversion
    of arrays and objects goes through their [toString] and is left at
    NaN here. *)
Definition Number (v : JSValue) : float64 :=
  match v with
  | JUndefined => NaN
  | JNull => S754_zero false
  | JBoolean b => if b then F 1 else S754_zero false
  | JNumber x => x
  | JString s => StringToNumber s
  | JArray _ | JObject _ => NaN
  end.

(** The global [isNaN]. *)
Definition isNaN (v : JSValue) : bool :=
  match Number v with S754_nan => true | _ => false end.

(** ToString of an environment variable inside a template literal. *)
Definition template_string (v : option JSString) : JSString :=
  match v with
  | Some s => s
  | None => lit "undefined"
  end.

(** [v === s] for a string [s]: a string with the same code units. *)
Definition strict_equals_string (v : JSValue) (s : JSString) : bool :=
  match v with
  | JString t => bool_decide (t = s)
  | _ => false
  end.

(** Property read [o[key]]: [undefined] when the key is absent. *)
Definition get (o : gmap string JSValue) (key : string) : JSValue :=
  match o !! key with
  | Some v => v
  | None => JUndefined
  end.

End JS.

(* ===================================================================== *)
(** ** The parsers of zod *)
(* ===================================================================== *)

Module Zod.
Import JS.

Inductive ZodParsedType :=
| t_string | t_nan | t_number | t_float | t_boolean | t_undefined | t_null
| t_array | t_object.

Definition getParsedType (data : JSValue) : ZodParsedType :=
  match data with
  | JUndefined => t_undefined
  | JNull => t_null
  | JBoolean _ => t_boolean
  | JNumber x => if isNaN data then t_nan else t_number
  | JString _ => t_string
  | JArray _ => t_array
  | JObject _ => t_object
  end.

Definition Path := list string.

(** The issues a failed parse reports: the issue code, its parameters,
    and the path of the field it is about. The schemas set no message of
    their own, so the message of an issue is the default one of its code
    and is left out. *)
Inductive ZodIssue :=
| invalid_type (expected : JSString) (received : ZodParsedType) (path : Path)
| invalid_union (unionErrors : list (list ZodIssue)) (path : Path)
| invalid_enum_value (options : list JSString) (received : JSValue)
    (path : Path)
| too_small (type : ZodParsedType) (minimum : Z) (path : Path)
| too_big (type : ZodParsedType) (maximum : Z) (path : Path)
| custom (path : Path).

Definition issue_path (i : ZodIssue) : Path :=
  match i with
  | invalid_type _ _ p | invalid_union _ p | invalid_enum_value _ _ p
  | too_small _ _ p | too_big _ _ p | custom p => p
  end.

(** The status and value a parser returns. *)
Inductive ParseReturnType :=
| OK (value : JSValue)
| DIRTY (value : JSValue)
| INVALID.

(** A parser reads the input at a path; it returns a status and the
    issues it added to the context. *)
Definition Parsed : Type := ParseReturnType * list ZodIssue.
Definition ZodType : Type := Path -> JSValue -> Parsed.

(** The status after one more issue: a valid value becomes dirty. *)
Definition dirty (r : ParseReturnType) : ParseReturnType :=
  match r with
  | OK v => DIRTY v
  | r => r
  end.

(** *** ZodString *)

Inductive ZodStringCheck := s_min (value : Z) | s_max (value : Z).

Definition string_check (path : Path) (s : JSString) (acc : Parsed)
    (check : ZodStringCheck) : Parsed :=
  let len := Z.of_nat (length s) in
  match check with
  | s_min n =>
      if len <? n then (dirty (fst acc), snd acc ++ [too_small t_string n path])
      else acc
  | s_max n =>
      if len >? n then (dirty (fst acc), snd acc ++ [too_big t_string n path])
      else acc
  end.

Definition ZodString (checks : list ZodStringCheck) : ZodType :=
  fun path data =>
    match data with
    | JString s => fold_left (string_check path s) checks (OK data, [])
    | _ => (INVALID, [invalid_type (lit "string") (getParsedType data) path])
    end.

(** *** ZodNumber *)

Inductive ZodNumberCheck := n_int | n_min (value : Z) | n_max (value : Z).

Definition number_check (path : Path) (x : float64) (acc : Parsed)
    (check : ZodNumberCheck) : Parsed :=
  match check with
  | n_int =>
      if negb (isInteger x)
      then (dirty (fst acc), snd acc ++ [invalid_type (lit "integer") t_float path])
      else acc
  | n_min n =>
      if lessThan x (F n)
      then (dirty (fst acc), snd acc ++ [too_small t_number n path])
      else acc
  | n_max n =>
      if greaterThan x (F n)
      then (dirty (fst acc), snd acc ++ [too_big t_number n path])
      else acc
  end.

Definition ZodNumber (checks : list ZodNumberCheck) : ZodType :=
  fun path data =>
    match data with
    | JNumber x =>
        if isNaN data
        then (INVALID, [invalid_type (lit "number") t_nan path])
        else fold_left (number_check path x) checks (OK data, [])
    | _ => (INVALID, [invalid_type (lit "number") (getParsedType data) path])
    end.

(** *** ZodUnion

    Each option parses the input in a context of its own. The first valid
    result is returned; failing that, the first dirty result together
    with the issues of its context; failing that, one [invalid_union]
    issue that holds the issues of every option. *)

Fixpoint union_options (options : list ZodType) (path : Path)
    (data : JSValue) (first_dirty : option Parsed)
    (issues : list (list ZodIssue)) : Parsed :=
  match options with
  | option :: rest =>
      let '(result, child_issues) := option path data in
      let issues' :=
        match child_issues with
        | [] => issues
        | _ => issues ++ [child_issues]
        end in
      match result with
      | OK _ => (result, [])
      | DIRTY _ =>
          let first_dirty' :=
            match first_dirty with
            | None => Some (result, child_issues)
            | Some _ => first_dirty
            end in
          union_options rest path data first_dirty' issues'
      | INVALID => union_options rest path data first_dirty issues'
      end
  | [] =>
      match first_dirty with
      | Some d => d
      | None => (INVALID, [invalid_union issues path])
      end
  end.

Definition ZodUnion (options : list ZodType) : ZodType :=
  fun path data => union_options options path data None [].

(** *** ZodEffects *)

(** [schema.transform(f)]: the inner result is returned as it is unless
    it is valid. *)
Definition transform (f : JSValue -> JSValue) (schema : ZodType) : ZodType :=
  fun path data =>
    let '(base, issues) := schema path data in
    match base with
    | OK v => (OK (f v), issues)
    | _ => (base, issues)
    end.

(** [schema.refine(check)]: nothing runs on an aborted inner result; on a
    valid or a dirty one the check runs, and its failure adds a [custom]
    issue and makes the result dirty. The value is the inner value. *)
Definition refine (check : JSValue -> bool) (schema : ZodType) : ZodType :=
  fun path data =>
    let '(inner, issues) := schema path data in
    match inner with
    | INVALID => (INVALID, issues)
    | OK v | DIRTY v =>
        if check v then (inner, issues)
        else (DIRTY v, issues ++ [custom path])
    end.

(** *** ZodDefault: [undefined] is replaced before the inner parse. *)
Definition default (defaultValue : JSValue) (innerType : ZodType) : ZodType :=
  fun path data =>
    match data with
    | JUndefined => innerType path defaultValue
    | _ => innerType path data
    end.

(** *** ZodNativeEnum *)

(** A TypeScript string enum is an object from member names to strings. *)
Definition EnumLike := list (string * JSString).

(** [util.getValidEnumValues]: a string enum has no reverse mapping to
    filter out, so every member's value is kept. *)
Definition getValidEnumValues (values : EnumLike) : list JSString :=
  map snd values.

(** [Array.prototype.indexOf(data) !== -1] on an array of strings. *)
Definition includes (values : list JSString) (data : JSValue) : bool :=
  match data with
  | JString s => existsb (fun v => bool_decide (v = s)) values
  | _ => false
  end.

(** [util.joinValues]: the quoted values, separated by [" | "]. *)
Fixpoint joinValues (values : list JSString) : JSString :=
  match values with
  | [] => []
  | [v] => lit "'" ++ v ++ lit "'"
  | v :: rest => lit "'" ++ v ++ lit "'" ++ lit " | " ++ joinValues rest
  end.

Definition nativeEnum (values : EnumLike) : ZodType :=
  fun path data =>
    let nativeEnumValues := getValidEnumValues values in
    match getParsedType data with
    | t_string | t_number =>
        if includes nativeEnumValues data then (OK data, [])
        else (INVALID, [invalid_enum_value nativeEnumValues data path])
    | received =>
        (INVALID, [invalid_type (joinValues nativeEnumValues) received path])
    end.

(** *** ZodObject *)

Definition ZodRawShape := list (string * ZodType).

(** [base.extend(augmentation)]: the spread of both shapes, the keys of
    the base first, a key of the augmentation replacing the same key of
    the base. *)
Definition shape_lookup (key : string) (shape : ZodRawShape) : option ZodType :=
  option_map snd (find (fun kv => bool_decide (fst kv = key)) shape).

Definition extend (base augmentation : ZodRawShape) : ZodRawShape :=
  map (fun kv =>
         match shape_lookup (fst kv) augmentation with
         | Some schema => (fst kv, schema)
         | None => kv
         end) base
  ++ filter (fun kv => bool_decide (shape_lookup (fst kv) base = None)
             ) augmentation.

(** One parsed property: its key, the result of its parser, and whether
    the input has the key. *)
Record ObjectPair := {
  pair_key : string;
  pair_value : ParseReturnType;
  alwaysSet : bool;
}.

(** Every property of the shape is parsed, in the order of the shape,
    at the path of the object followed by its key. The issues of all of
    them are added to the context. *)
Fixpoint parse_properties (shape : ZodRawShape) (path : Path)
    (data : gmap string JSValue) : list ObjectPair * list ZodIssue :=
  match shape with
  | (key, keyValidator) :: rest =>
      let '(value, issues) := keyValidator (path ++ [key]) (get data key) in
      let '(pairs, issues') := parse_properties rest path data in
      ({| pair_key := key; pair_value := value;
          alwaysSet := bool_decide (is_Some (data !! key)) |} :: pairs,
       issues ++ issues')
  | [] => ([], [])
  end.

(** [finalObject[key] = value], unless the value is [undefined] and the
    input has no such key. *)
Definition set_property (finalObject : gmap string JSValue)
    (p : ObjectPair) (value : JSValue) : gmap string JSValue :=
  match value, alwaysSet p with
  | JUndefined, false => finalObject
  | _, _ => <[pair_key p := value]> finalObject
  end.

(** [ParseStatus.mergeObjectSync]: aborted as soon as one property is,
    dirty if one is dirty, and the object of the parsed values. (No key
    of a shape here is [__proto__], which the merge would skip.) *)
Fixpoint mergeObjectSync (is_dirty : bool)
    (finalObject : gmap string JSValue) (pairs : list ObjectPair)
  : ParseReturnType :=
  match pairs with
  | p :: rest =>
      match pair_value p with
      | INVALID => INVALID
      | DIRTY v =>
          mergeObjectSync true (set_property finalObject p v) rest
      | OK v =>
          mergeObjectSync is_dirty (set_property finalObject p v) rest
      end
  | [] =>
      if is_dirty then DIRTY (JObject finalObject)
      else OK (JObject finalObject)
  end.

(** A [ZodObject] with the default policy for unknown keys: they are
    stripped. *)
Definition ZodObject (shape : ZodRawShape) : ZodType :=
  fun path data =>
    match data with
    | JObject o =>
        let '(pairs, issues) := parse_properties shape path o in
        (mergeObjectSync false ∅ pairs, issues)
    | _ => (INVALID, [invalid_type (lit "object") (getParsedType data) path])
    end.

(** *** safeParse *)

Inductive SafeParseReturnType :=
| success (data : JSValue)
| error (issues : list ZodIssue).

Definition safeParse (schema : ZodType) (data : JSValue)
  : SafeParseReturnType :=
  let '(result, issues) := schema [] data in
  match result with
  | OK value => success value
  | _ => error issues
  end.

Definition is_success (r : SafeParseReturnType) : bool :=
  match r with
  | success _ => true
  | error _ => false
  end.

End Zod.

(* ===================================================================== *)
(** ** schemas.ts *)
(* ===================================================================== *)

Module Schemas.
Import JS Zod.

(** The two variables the module reads from [process.env] when it is
    loaded. Either may be unset. *)
Record ProcessEnv := {
  env_LIQPAY_PUBLIC_KEY : option JSString;
  env_URL : option JSString;
}.

Definition PaymentAction : EnumLike :=
  [("PAY", lit "pay"); ("HOLD", lit "hold"); ("SUBSCRIBE", lit "subscribe");
   ("PAYDONATE", lit "paydonate")]%string.

Definition PaymentCurrency : EnumLike :=
  [("UAH", lit "UAH"); ("USD", lit "USD"); ("EUR", lit "EUR")]%string.

Definition PaymentLanguage : EnumLike :=
  [("UK", lit "uk"); ("EN", lit "en")]%string.

Definition LiqpayPeriodicity : EnumLike :=
  [("DAY", lit "day"); ("MONTH", lit "month"); ("YEAR", lit "year")]%string.

(** The member [name] of an enum, as the source writes [Enum.NAME]. *)
Definition member (e : EnumLike) (name : string) : JSValue :=
  match find (fun kv => bool_decide (fst kv = name)) e with
  | Some kv => JString (snd kv)
  | None => JUndefined
  end.

Definition MaybeStringifiedNumberSchema : ZodType :=
  ZodUnion
    [refine (fun value => negb (isNaN value))
       (transform (fun value => JNumber (Number value)) (ZodString []));
     ZodNumber []].

Definition ShortStringSchema : ZodType := ZodString [s_min 1; s_max 200].

Definition LiqpayAPIVersionSchema : ZodType :=
  default (JNumber (F 3)) (ZodNumber [n_int; n_min 1; n_max 3]).

Definition LiqpayAmountSchema : ZodType :=
  default (JNumber (F 20)) (ZodNumber [n_int; n_min 1; n_max 10000]).

Definition UserCNBSchema_shape : ZodRawShape :=
  [("amount",
    refine (fun value => is_success (safeParse LiqpayAmountSchema value))
      (default (JNumber (F 20)) MaybeStringifiedNumberSchema));
   ("currency",
    default (member PaymentCurrency "UAH") (nativeEnum PaymentCurrency));
   ("action",
    default (member PaymentAction "PAY") (nativeEnum PaymentAction));
   ("subscribe_periodicity",
    default (member LiqpayPeriodicity "MONTH")
      (nativeEnum LiqpayPeriodicity))]%string.

Definition UserCNBSchema : ZodType := ZodObject UserCNBSchema_shape.

(** The default description, 'Пожертва команді Soulful'. *)
Definition default_description : JSString :=
  [1055; 1086; 1078; 1077; 1088; 1090; 1074; 1072; 32;
   1082; 1086; 1084; 1072; 1085; 1076; 1110; 32]%N ++ lit "Soulful".

Section WithEnv.
Variable env : ProcessEnv.

(** [const { LIQPAY_PUBLIC_KEY = '', URL } = process.env]: the empty
    string stands for a public key that is not set. *)
Definition LIQPAY_PUBLIC_KEY : JSString :=
  match env_LIQPAY_PUBLIC_KEY env with
  | Some key => key
  | None => []
  end.

Definition URL : option JSString := env_URL env.

Definition CNBSchema_shape : ZodRawShape :=
  extend UserCNBSchema_shape
    [("public_key",
      default (JString LIQPAY_PUBLIC_KEY)
        (refine (fun value => strict_equals_string value LIQPAY_PUBLIC_KEY)
           (ZodString [])));
     ("version",
      refine (fun value => is_success (safeParse LiqpayAPIVersionSchema value))
        (default (JNumber (F 3)) MaybeStringifiedNumberSchema));
     ("description",
      default (JString default_description) ShortStringSchema);
     ("language",
      default (member PaymentLanguage "UK") (nativeEnum PaymentLanguage));
     ("subscribe_date_start",
      default (JString (lit "2024-01-01 00:00:00")) (ZodString []));
     ("result_url",
      default
        (JString (template_string URL ++ lit "/donate/thankyou")%list)
        (ZodString []))]%string.

Definition CNBSchema : ZodType := ZodObject CNBSchema_shape.

End WithEnv.

End Schemas.

(* ===================================================================== *)
(** ** The vocabulary of the theorems *)
(* ===================================================================== *)

Import JS Zod Schemas.

Arguments lit : simpl never.
Arguments F : simpl never.
Arguments StringToNumber : simpl never.

Local Open Scope string_scope.
Local Open Scope list_scope.
Local Open Scope Z_scope.

(** *** Numbers *)

(** The three checks [.int().min(lo).max(hi)] taken together. *)
Definition in_range (lo hi : Z) (x : float64) : bool :=
  isInteger x && negb (lessThan x (F lo)) && negb (greaterThan x (F hi)).

(** [k] is a number the type represents exactly. *)
Definition exact (k : Z) : Prop :=
  exists q, SF2Q (F k) = Some q /\ (q == inject_Z k)%Q /\
            exists s m e, F k = S754_finite s m e.

(** [String(n)] for an integer [n]: its decimal numeral. *)
Fixpoint decimal_digits (fuel : nat) (n : N) (acc : JSString) : JSString :=
  match fuel with
  | O => acc
  | S fuel' =>
      let acc' := (48 + n mod 10)%N :: acc in
      if (n / 10 =? 0)%N then acc' else decimal_digits fuel' (n / 10)%N acc'
  end.

Definition numeral (n : Z) : JSString :=
  (if n <? 0 then [45%N] else []) ++
  decimal_digits (S (N.to_nat (N.log2 (Z.to_N (Z.abs n))))) (Z.to_N (Z.abs n)) [].

(** Every integer from 1 to 10000 is a number of its own, which denotes
    it and which its numeral converts to. *)
Definition small_integer_ok (n : Z) : bool :=
  match integer_value (F n) with
  | Some m => (m =? n) && negb (isNaN (JNumber (F n)))
  | None => false
  end
  && match StringToNumber (numeral n), F n with
     | S754_finite s1 m1 e1, S754_finite s2 m2 e2 =>
         Bool.eqb s1 s2 && (m1 =? m2)%positive && (e1 =? e2)
     | _, _ => false
     end.

(** The number a raw value stands for: itself, or the conversion of a
    string. *)
Definition numeric_value (v : JSValue) : option float64 :=
  match v with
  | JNumber x => Some x
  | JString s => Some (StringToNumber s)
  | _ => None
  end.

(** The ways of supplying the integer [n] as a raw value. *)
Inductive supplies (n : Z) : JSValue -> Prop :=
| as_number : supplies n (JNumber (F n))
| as_numeral : supplies n (JString (numeral n))
| as_numeric_string s : StringToNumber s = F n -> supplies n (JString s).

(** A string of white space only, possibly empty. *)
Definition blank (s : JSString) : Prop :=
  Forall (fun c => is_StrWhiteSpaceChar c = true) s.

(** *** Issues *)

(** Some issues, all of them at one path. *)
Definition at_path (path : Path) (issues : list ZodIssue) : Prop :=
  issues <> [] /\ Forall (fun i => issue_path i = path) issues.

(** Two failures can be told apart when some issue of the first is of a
    kind that no issue of the second is. *)
Definition distinguishable (a b : list ZodIssue) : Prop :=
  exists kind : ZodIssue -> bool,
    (exists i, In i a /\ kind i = true) /\
    (forall j, In j b -> kind j = false).

(** A parser that reports no issue with a valid result. *)
Definition quiet (schema : ZodType) : Prop :=
  forall path data v issues, schema path data = (OK v, issues) -> issues = [].

(** *** The fields of the schemas, by kind *)

(** A field [MaybeStringifiedNumberSchema.default(d).refine(...)], the
    refinement being the success of a checked number schema. *)
Definition number_field (lo hi d d' : Z) : ZodType :=
  refine
    (fun value =>
       is_success
         (safeParse
            (default (JNumber (F d')) (ZodNumber [n_int; n_min lo; n_max hi]))
            value))
    (default (JNumber (F d)) MaybeStringifiedNumberSchema).

Definition enum_field (values : EnumLike) (name : string) : ZodType :=
  default (member values name) (nativeEnum values).

Definition public_key_field (env : ProcessEnv) : ZodType :=
  default (JString (LIQPAY_PUBLIC_KEY env))
    (refine (fun value => strict_equals_string value (LIQPAY_PUBLIC_KEY env))
       (ZodString [])).

Definition string_field (d : JSString) : ZodType :=
  default (JString d) (ZodString []).

Definition default_result_url (env : ProcessEnv) : JSString :=
  template_string (URL env) ++ lit "/donate/thankyou".

(** What a number field returns, by the kind of the raw value. *)
Definition union_mismatch (received : ZodParsedType) (path : Path) : Parsed :=
  (INVALID,
   [invalid_union
      [[invalid_type (lit "string") received path];
       [invalid_type (lit "number") received path]] path]).

Definition checked (lo hi : Z) (x : float64) (path : Path) : Parsed :=
  if in_range lo hi x then (OK (JNumber x), [])
  else (DIRTY (JNumber x), [custom path]).

Definition number_field_result (lo hi d : Z) (path : Path) (data : JSValue)
  : Parsed :=
  match data with
  | JUndefined => checked lo hi (F d) path
  | JNumber x =>
      if isNaN data then union_mismatch t_nan path else checked lo hi x path
  | JString s =>
      let x := StringToNumber s in
      if isNaN (JNumber x) then (DIRTY (JNumber x), [custom path; custom path])
      else checked lo hi x path
  | _ => union_mismatch (getParsedType data) path
  end.

(** The enum fields and the strings each accepts. *)
Definition enum_fields : list (string * list JSString) :=
  [("currency", [lit "UAH"; lit "USD"; lit "EUR"]);
   ("action", [lit "pay"; lit "hold"; lit "subscribe"; lit "paydonate"]);
   ("subscribe_periodicity", [lit "day"; lit "month"; lit "year"]);
   ("language", [lit "uk"; lit "en"])].

(** The numeric fields and their bounds. *)
Definition numeric_fields : list (string * (Z * Z)) :=
  [("amount", (1, 10000)); ("version", (1, 3))].

(** *** Objects *)

(** The result of the parser of one property of the shape. *)
Definition property (path : Path) (o : gmap string JSValue)
    (kv : string * ZodType) : Parsed :=
  snd kv (path ++ [fst kv]) (get o (fst kv)).

Definition pair_of (path : Path) (o : gmap string JSValue)
    (kv : string * ZodType) : ObjectPair :=
  {| pair_key := fst kv;
     pair_value := fst (property path o kv);
     alwaysSet := bool_decide (is_Some (o !! fst kv)) |}.

Definition property_issues (path : Path) (o : gmap string JSValue)
    (kv : string * ZodType) : list ZodIssue :=
  snd (property path o kv).

Definition pair_OK (p : ObjectPair) : bool :=
  match pair_value p with
  | OK _ => true
  | _ => false
  end.

Definition pair_set (fo : gmap string JSValue) (p : ObjectPair)
  : gmap string JSValue :=
  match pair_value p with
  | OK v | DIRTY v => set_property fo p v
  | INVALID => fo
  end.

(** *** Requests and processes *)

(** The request the documentation promises for an empty input. *)
Definition documented_defaults (public_key base_url : JSString)
  : gmap string JSValue :=
  list_to_map
    [("amount", JNumber (F 20));
     ("currency", JString (lit "UAH"));
     ("action", JString (lit "pay"));
     ("subscribe_periodicity", JString (lit "month"));
     ("version", JNumber (F 3));
     ("description", JString default_description);
     ("language", JString (lit "uk"));
     ("subscribe_date_start", JString (lit "2024-01-01 00:00:00"));
     ("result_url", JString (base_url ++ lit "/donate/thankyou"));
     ("public_key", JString public_key)].

(** A configured process: a sandbox public key and a base URL. *)
Definition env0 : ProcessEnv :=
  {| env_LIQPAY_PUBLIC_KEY := Some (lit "sandbox_i00000000");
     env_URL := Some (lit "https://example.org") |}.

Definition defaults0 : gmap string JSValue :=
  documented_defaults (lit "sandbox_i00000000") (lit "https://example.org").

(** *** The schemas as a whole *)

(** The keys of [UserCNBSchema], and those of [CNBSchema]. *)
Definition user_field_names : list string :=
  ["amount"; "currency"; "action"; "subscribe_periodicity"].

Definition field_names : list string :=
  user_field_names ++
  ["public_key"; "version"; "description"; "language";
   "subscribe_date_start"; "result_url"].

(** A parser whose valid results are never [undefined] and are valid
    inputs of their own, returned as they are. *)
Definition stable (schema : ZodType) : Prop :=
  forall path data w issues,
    schema path data = (OK w, issues) ->
    w <> JUndefined /\ forall path', schema path' w = (OK w, []).

(** A parser whose issues are all at the path it parses at. *)
Definition at_own_path (schema : ZodType) : Prop :=
  forall path data, Forall (fun i => issue_path i = path) (snd (schema path data)).

(** A parser that reports an issue whenever its result is not valid. *)
Definition reports (schema : ZodType) : Prop :=
  forall path data,
    (forall w, fst (schema path data) <> OK w) -> snd (schema path data) <> [].

(** The two number schemas the module exports, with their bounds and
    their default. *)
Definition checked_number_schemas : list (ZodType * (Z * Z * Z)) :=
  [(LiqpayAmountSchema, (1, 10000, 20));
   (LiqpayAPIVersionSchema, (1, 3, 3))].

(** The issues of the checks of a number schema, none of which stops
    the others. *)
Definition check_issues (lo hi : Z) (x : float64) (path : Path)
  : list ZodIssue :=
  (if isInteger x then [] else [invalid_type (lit "integer") t_float path]) ++
  (if lessThan x (F lo) then [too_small t_number lo path] else []) ++
  (if greaterThan x (F hi) then [too_big t_number hi path] else []).

(* ===================================================================== *)
(** ** Numbers: the range checks denote what they say *)
(* ===================================================================== *)

Section Numbers.

Lemma isInteger_integer_value x :
  isInteger x = true <-> exists n, integer_value x = Some n.
Proof.
  unfold isInteger, integer_value. destruct (SF2Q x) as [q|].
  - destruct (Qeq_bool (inject_Z (Qfloor q)) q); split; eauto;
      [discriminate | intros [n Hn]; discriminate].
  - split; [discriminate | intros [n Hn]; discriminate].
Qed.

Lemma integer_value_Q x n :
  integer_value x = Some n ->
  exists q, SF2Q x = Some q /\ (q == inject_Z n)%Q.
Proof.
  unfold integer_value. destruct (SF2Q x) as [q|]; [|discriminate].
  destruct (Qeq_bool (inject_Z (Qfloor q)) q) eqn:E; [|discriminate].
  intros [= <-]. exists q. split; [reflexivity|].
  apply Qeq_bool_iff in E. symmetry. exact E.
Qed.

Lemma finite_not_special x q :
  SF2Q x = Some q ->
  (exists s, x = S754_zero s) \/ (exists s m e, x = S754_finite s m e).
Proof. destruct x; simpl; try discriminate; eauto. Qed.

(** Against an exact constant, [<] compares the mathematical values. *)
Lemma lessThan_exact_r x q k :
  exact k -> SF2Q x = Some q ->
  lessThan x (F k) = negb (Qle_bool (inject_Z k) q).
Proof.
  intros (qk & Hqk & Hk & s & m & e & HF) Hx.
  unfold lessThan. rewrite HF in *.
  destruct (finite_not_special _ _ Hx) as [[sx ->] | (sx & mx & ex & ->)];
    rewrite Hx, Hqk; f_equal;
    apply eq_true_iff_eq; rewrite !Qle_bool_iff, Hk; reflexivity.
Qed.

Lemma lessThan_exact_l x q k :
  exact k -> SF2Q x = Some q ->
  lessThan (F k) x = negb (Qle_bool q (inject_Z k)).
Proof.
  intros (qk & Hqk & Hk & s & m & e & HF) Hx.
  unfold lessThan. rewrite HF in *.
  destruct (finite_not_special _ _ Hx) as [[sx ->] | (sx & mx & ex & ->)];
    rewrite Hx, Hqk; f_equal;
    apply eq_true_iff_eq; rewrite !Qle_bool_iff, Hk; reflexivity.
Qed.

(** The checks hold exactly of the numbers that denote an integer of
    the interval. *)
Lemma in_range_spec lo hi x :
  exact lo -> exact hi ->
  in_range lo hi x = true <->
  exists n, integer_value x = Some n /\ lo <= n <= hi.
Proof.
  intros Hlo Hhi. unfold in_range, greaterThan. split.
  - intros H. apply andb_prop in H as [H H3]. apply andb_prop in H as [H1 H2].
    apply isInteger_integer_value in H1 as [n Hn].
    destruct (integer_value_Q _ _ Hn) as (q & Hq & Hqn).
    rewrite (lessThan_exact_r _ _ _ Hlo Hq), negb_involutive in H2.
    rewrite (lessThan_exact_l _ _ _ Hhi Hq), negb_involutive in H3.
    apply Qle_bool_iff in H2, H3. rewrite Hqn in H2, H3.
    rewrite <- Zle_Qle in H2, H3. eauto.
  - intros (n & Hn & Hle).
    destruct (integer_value_Q _ _ Hn) as (q & Hq & Hqn).
    rewrite (lessThan_exact_r _ _ _ Hlo Hq), (lessThan_exact_l _ _ _ Hhi Hq).
    rewrite !negb_involutive.
    assert (isInteger x = true) as -> by (apply isInteger_integer_value; eauto).
    assert (Qle_bool (inject_Z lo) q = true) as ->
      by (apply Qle_bool_iff; rewrite Hqn, <- Zle_Qle; lia).
    assert (Qle_bool q (inject_Z hi) = true) as ->
      by (apply Qle_bool_iff; rewrite Hqn, <- Zle_Qle; lia).
    reflexivity.
Qed.

Lemma exact_computed k q s m e :
  SF2Q (F k) = Some q -> Qeq_bool q (inject_Z k) = true ->
  F k = S754_finite s m e -> exact k.
Proof.
  intros Hq Hk HF. exists q. split; [exact Hq|]. split; [|eauto].
  apply Qeq_bool_iff. exact Hk.
Qed.

Lemma exact_1 : exact 1.
Proof. eapply exact_computed; vm_compute; reflexivity. Qed.

Lemma exact_3 : exact 3.
Proof. eapply exact_computed; vm_compute; reflexivity. Qed.

Lemma exact_10000 : exact 10000.
Proof. eapply exact_computed; vm_compute; reflexivity. Qed.

Lemma small_integers_checked :
  forallb small_integer_ok (map Z.of_nat (seq 1 (Z.to_nat 10000))) = true.
Proof. vm_compute. reflexivity. Qed.

Lemma small_integer n :
  1 <= n <= 10000 ->
  integer_value (F n) = Some n /\ isNaN (JNumber (F n)) = false /\
  StringToNumber (numeral n) = F n.
Proof.
  intros Hn.
  assert (In n (map Z.of_nat (seq 1 (Z.to_nat 10000)))) as Hin.
  { apply in_map_iff. exists (Z.to_nat n). split; [lia|].
    apply in_seq. lia. }
  pose proof small_integers_checked as H.
  rewrite forallb_forall in H. specialize (H n Hin).
  unfold small_integer_ok in H. apply andb_prop in H as [H1 H2].
  destruct (integer_value (F n)) as [m|]; [|discriminate].
  apply andb_prop in H1 as [H1 H1']. apply Z.eqb_eq in H1. subst m.
  apply negb_true_iff in H1'.
  split; [reflexivity|]. split; [exact H1'|].
  destruct (StringToNumber (numeral n)) as [| | |s1 m1 e1]; try discriminate.
  destruct (F n) as [| | |s2 m2 e2]; try discriminate.
  apply andb_prop in H2 as [H2 He]. apply andb_prop in H2 as [Hs Hm].
  apply Bool.eqb_prop in Hs. apply Pos.eqb_eq in Hm. apply Z.eqb_eq in He.
  congruence.
Qed.

(** The conversion on some literals: decimal, hexadecimal, exponent,
    rounding to the nearest number, and strings that are no literal. *)
Example StringToNumber_examples :
  StringToNumber (lit "42") = F 42 /\
  StringToNumber (lit " 0x2A ") = F 42 /\
  StringToNumber (lit "4.2e1") = F 42 /\
  StringToNumber (lit "0.1") = S754_finite false 7205759403792794 (-56) /\
  StringToNumber (lit "1.0000000000000000000001") = F 1 /\
  StringToNumber (lit "-0") = S754_zero true /\
  StringToNumber (lit "1e400") = S754_infinity false /\
  StringToNumber (lit "abc") = NaN /\
  StringToNumber (lit "12px") = NaN /\
  StringToNumber (lit ".") = NaN.
Proof. vm_compute. repeat split. Qed.

End Numbers.

(* ===================================================================== *)
(** ** The fields, one at a time *)
(* ===================================================================== *)

Section Fields.

(** A schema [z.number().int().min(lo).max(hi).default(d)] accepts
    exactly the numbers that pass the three checks. *)
Lemma checked_number_success lo hi d x :
  is_success
    (safeParse (default (JNumber (F d)) (ZodNumber [n_int; n_min lo; n_max hi]))
       (JNumber x))
  = in_range lo hi x.
Proof.
  unfold safeParse, default, ZodNumber, in_range, isNaN. simpl Number.
  destruct x as [s|s| |s m e]; try reflexivity;
    cbn [fold_left number_check fst snd];
    match goal with
    | |- context [isInteger ?y] => destruct (isInteger y)
    end; cbn [negb andb fst snd dirty];
    match goal with
    | |- context [lessThan ?y (F lo)] => destruct (lessThan y (F lo))
    end; cbn [negb andb fst snd dirty];
    match goal with
    | |- context [greaterThan ?y (F hi)] => destruct (greaterThan y (F hi))
    end; reflexivity.
Qed.

(** [Number] is only ever applied to a string: a valid result of
    [z.string()] is one. *)
Lemma ZodString_value checks path data v issues :
  ZodString checks path data = (OK v, issues) -> exists s, v = JString s.
Proof.
  unfold ZodString. destruct data as [| |b|x|s|l|o]; try discriminate.
  assert (forall acc, (exists t, fst acc = OK (JString t)) \/ (forall w, fst acc <> OK w) ->
          fold_left (string_check path s) checks acc = (OK v, issues) ->
          exists t, v = JString t) as H.
  { induction checks as [|c rest IH]; intros acc Hacc; cbn [fold_left].
    - intros E. rewrite E in Hacc. destruct Hacc as [[t [= ->]]|Hacc]; [eauto|].
      exfalso. apply (Hacc v). reflexivity.
    - apply IH. unfold string_check.
      destruct c; match goal with |- context [if ?b then _ else _] =>
        destruct b end; cbn [fst]; try exact Hacc;
        right; intros w; destruct (fst acc); discriminate. }
  apply H. left. eauto.
Qed.

Lemma MaybeStringifiedNumberSchema_spec path data :
  MaybeStringifiedNumberSchema path data =
  match data with
  | JNumber x =>
      if isNaN data then union_mismatch t_nan path else (OK data, [])
  | JString s =>
      let x := StringToNumber s in
      if isNaN (JNumber x) then (DIRTY (JNumber x), [custom path])
      else (OK (JNumber x), [])
  | _ => union_mismatch (getParsedType data) path
  end.
Proof.
  unfold MaybeStringifiedNumberSchema, ZodUnion, union_mismatch.
  destruct data as [| |b|x|s|l|o]; try reflexivity.
  - unfold isNaN. simpl Number. destruct x; reflexivity.
  - cbn -[isNaN]. destruct (isNaN (JNumber (StringToNumber s))); reflexivity.
Qed.

Lemma number_field_spec lo hi d d' path data :
  isNaN (JNumber (F d)) = false ->
  number_field lo hi d d' path data = number_field_result lo hi d path data.
Proof.
  intros Hd. unfold number_field, refine, number_field_result, checked.
  assert (forall x, isNaN (JNumber x) = true -> in_range lo hi x = false)
    as Hnan.
  { intros x. unfold isNaN. simpl. destruct x; try discriminate. reflexivity. }
  pose proof (checked_number_success lo hi d') as Hcheck.
  set (schema := default (JNumber (F d')) _) in *.
  destruct data as [| |b|x|s|l|o]; unfold default;
    rewrite MaybeStringifiedNumberSchema_spec; try reflexivity.
  - rewrite Hd, Hcheck.
    destruct (in_range lo hi (F d)); reflexivity.
  - destruct (isNaN (JNumber x)) eqn:E; [reflexivity|].
    rewrite Hcheck.
    destruct (in_range lo hi x); reflexivity.
  - cbv zeta. destruct (isNaN (JNumber (StringToNumber s))) eqn:E;
      rewrite Hcheck.
    + rewrite (Hnan _ E). reflexivity.
    + destruct (in_range lo hi (StringToNumber s)); reflexivity.
Qed.

End Fields.

(* ===================================================================== *)
(** ** Objects: every property is parsed on its own *)
(* ===================================================================== *)

Section Objects.

Implicit Types (shape : ZodRawShape) (o fo : gmap string JSValue).
Implicit Types (p : ObjectPair) (key k : string).

Lemma parse_properties_spec shape path o :
  parse_properties shape path o =
  (map (pair_of path o) shape, flat_map (property_issues path o) shape).
Proof.
  induction shape as [|[key schema] rest IH]; [reflexivity|].
  cbn [parse_properties map flat_map]. rewrite IH.
  unfold pair_of, property_issues, property. cbn [fst snd].
  destruct (schema (path ++ [key]) (get o key)); reflexivity.
Qed.

Lemma mergeObjectSync_dirty pairs : forall fo v,
  mergeObjectSync true fo pairs <> OK v.
Proof.
  induction pairs as [|p rest IH]; intros fo v; cbn [mergeObjectSync].
  - discriminate.
  - destruct (pair_value p); [apply IH | apply IH | discriminate].
Qed.

Lemma mergeObjectSync_OK pairs : forall fo,
  forallb pair_OK pairs = true ->
  mergeObjectSync false fo pairs = OK (JObject (fold_left pair_set pairs fo)).
Proof.
  induction pairs as [|p rest IH]; intros fo H; [reflexivity|].
  cbn [forallb] in H. apply andb_prop in H as [Hp Hrest].
  cbn [mergeObjectSync fold_left]. unfold pair_OK in Hp. unfold pair_set at 2.
  destruct (pair_value p); try discriminate. apply IH, Hrest.
Qed.

Lemma mergeObjectSync_not_OK pairs : forall b fo v,
  forallb pair_OK pairs = false ->
  mergeObjectSync b fo pairs <> OK v.
Proof.
  induction pairs as [|p rest IH]; intros b fo v H; [discriminate|].
  cbn [forallb] in H. cbn [mergeObjectSync]. unfold pair_OK in H at 1.
  destruct (pair_value p); cbn [andb] in H.
  - apply IH, H.
  - apply mergeObjectSync_dirty.
  - discriminate.
Qed.

(** An object parses to the object of its parsed properties when all of
    them are valid, and to the issues of all of them otherwise. *)
Theorem ZodObject_safeParse shape o :
  safeParse (ZodObject shape) (JObject o) =
  if forallb pair_OK (map (pair_of [] o) shape)
  then success (JObject (fold_left pair_set (map (pair_of [] o) shape) ∅))
  else error (flat_map (property_issues [] o) shape).
Proof.
  unfold safeParse, ZodObject. rewrite parse_properties_spec.
  destruct (forallb pair_OK (map (pair_of [] o) shape)) eqn:E.
  - rewrite (mergeObjectSync_OK _ _ E). reflexivity.
  - pose proof (fun v => mergeObjectSync_not_OK _ false ∅ v E) as H.
    destruct (mergeObjectSync false ∅ (map (pair_of [] o) shape)) as [v| |];
      [exfalso; apply (H v); reflexivity | reflexivity | reflexivity].
Qed.

(** A property that is not valid fails the object, and its issues are
    among those reported. *)
Theorem invalid_property_fails shape o key schema :
  In (key, schema) shape ->
  (forall v, fst (schema [key] (get o key)) <> OK v) ->
  exists issues,
    safeParse (ZodObject shape) (JObject o) = error issues /\
    incl (snd (schema [key] (get o key))) issues.
Proof.
  intros Hin Hbad. rewrite ZodObject_safeParse.
  assert (forallb pair_OK (map (pair_of [] o) shape) = false) as ->.
  { apply not_true_is_false. intros H. rewrite forallb_forall in H.
    specialize (H (pair_of [] o (key, schema)) (in_map _ _ _ Hin)).
    unfold pair_OK, pair_of, property in H. cbn [pair_value fst snd app] in H.
    destruct (fst (schema [key] (get o key))) eqn:E; try discriminate.
    eapply Hbad. reflexivity. }
  eexists. split; [reflexivity|].
  intros i Hi. apply in_flat_map. exists (key, schema). split; [exact Hin|].
  exact Hi.
Qed.

Lemma valid_properties_quiet shape o :
  Forall (fun kv => quiet (snd kv)) shape ->
  forallb pair_OK (map (pair_of [] o) shape) = true ->
  flat_map (property_issues [] o) shape = [].
Proof.
  induction 1 as [|kv rest Hq _ IH]; intros H; [reflexivity|].
  cbn [map forallb] in H. apply andb_prop in H as [Hkv Hrest].
  cbn [flat_map]. rewrite (IH Hrest), app_nil_r.
  unfold pair_OK, pair_of, property_issues, property in *.
  cbn [pair_value] in Hkv.
  destruct (snd kv ([] ++ [fst kv]) (get o (fst kv))) as [r issues] eqn:E.
  cbn [fst snd] in *. destruct r; try discriminate. eapply Hq, E.
Qed.

(** Properties other than [key] do not see a change of [key]. *)
Lemma pair_of_insert o key v kv :
  fst kv <> key ->
  pair_of [] (<[key := v]> o) kv = pair_of [] (delete key o) kv.
Proof.
  intros Hne. unfold pair_of, property, get.
  rewrite lookup_insert_ne, lookup_delete_ne by congruence. reflexivity.
Qed.

Lemma property_issues_insert o key v kv :
  fst kv <> key ->
  property_issues [] (<[key := v]> o) kv = property_issues [] (delete key o) kv.
Proof.
  intros Hne. unfold property_issues, property, get.
  rewrite lookup_insert_ne, lookup_delete_ne by congruence. reflexivity.
Qed.

Lemma pair_set_insert fo p key w :
  pair_key p <> key ->
  pair_set (<[key := w]> fo) p = <[key := w]> (pair_set fo p).
Proof.
  intros Hne. unfold pair_set, set_property.
  destruct (pair_value p) as [v|v|]; try reflexivity;
    destruct v, (alwaysSet p); try reflexivity;
    apply insert_insert_ne; congruence.
Qed.

Lemma fold_pair_set_insert pairs key w : forall fo,
  Forall (fun p => pair_key p <> key) pairs ->
  fold_left pair_set pairs (<[key := w]> fo) =
  <[key := w]> (fold_left pair_set pairs fo).
Proof.
  induction pairs as [|p rest IH]; intros fo H; [reflexivity|].
  inversion H as [|? ? Hp Hrest]; subst. cbn [fold_left].
  rewrite (pair_set_insert _ _ _ _ Hp). apply IH, Hrest.
Qed.

Lemma insert_pair_set fo p w :
  <[pair_key p := w]> (pair_set fo p) = <[pair_key p := w]> fo.
Proof.
  unfold pair_set, set_property.
  destruct (pair_value p) as [v|v|]; try reflexivity;
    destruct v, (alwaysSet p); try reflexivity; apply insert_insert_eq.
Qed.

Lemma get_insert o key v : get (<[key := v]> o) key = v.
Proof. unfold get. rewrite lookup_insert_eq. reflexivity. Qed.

Lemma other_keys (pre post : ZodRawShape) key schema :
  NoDup (map fst (pre ++ (key, schema) :: post)) ->
  Forall (fun kv => fst kv <> key) pre /\
  Forall (fun kv => fst kv <> key) post.
Proof.
  rewrite map_app. cbn [map fst]. intros H.
  apply NoDup_app in H as (_ & Hpre & Hpost).
  apply NoDup_cons in Hpost as [Hpost _].
  split; apply Forall_forall; intros kv Hkv Heq.
  - apply (Hpre key); [|left].
    rewrite <- Heq. apply list_elem_of_In, in_map, list_elem_of_In, Hkv.
  - apply Hpost.
    rewrite <- Heq. apply list_elem_of_In, in_map, list_elem_of_In, Hkv.
Qed.

(** Replacing one property of an input whose other properties are valid:
    the result is that of the parser of the property, and a valid value
    replaces the one the object had. *)
Theorem replace_property shape o key schema v r0 :
  NoDup (map fst shape) ->
  Forall (fun kv => quiet (snd kv)) shape ->
  In (key, schema) shape ->
  safeParse (ZodObject shape) (JObject (delete key o)) = success (JObject r0) ->
  safeParse (ZodObject shape) (JObject (<[key := v]> o)) =
  match schema [key] v with
  | (OK w, _) => success (JObject (<[key := w]> r0))
  | (_, issues) => error issues
  end.
Proof.
  intros Hnd Hq Hin H0. rewrite ZodObject_safeParse in *.
  destruct (in_split _ _ Hin) as (pre & post & ->).
  destruct (other_keys _ _ _ _ Hnd) as [Hpre Hpost].
  apply Forall_app in Hq as [Hqpre Hqpost].
  inversion Hqpost as [|? ? _ Hqpost']; subst. clear Hqpost.
  rewrite !map_app, !forallb_app, !flat_map_app in *.
  cbn [map forallb flat_map] in *.
  assert (forall l, Forall (fun kv => fst kv <> key) l ->
            map (pair_of [] (<[key := v]> o)) l = map (pair_of [] (delete key o)) l)
    as Hmap.
  { intros l Hl. apply map_ext_in. intros kv Hkv.
    apply pair_of_insert. rewrite Forall_forall in Hl.
    apply Hl, list_elem_of_In, Hkv. }
  assert (forall l, Forall (fun kv => fst kv <> key) l ->
            flat_map (property_issues [] (<[key := v]> o)) l =
            flat_map (property_issues [] (delete key o)) l) as Hissues.
  { intros l Hl. induction Hl as [|kv l Hkv _ IH]; [reflexivity|].
    cbn [flat_map]. rewrite IH, (property_issues_insert _ _ _ _ Hkv).
    reflexivity. }
  rewrite (Hmap _ Hpre), (Hmap _ Hpost), (Hissues _ Hpre), (Hissues _ Hpost).
  set (Pre := map (pair_of [] (delete key o)) pre) in *.
  set (Post := map (pair_of [] (delete key o)) post) in *.
  destruct (forallb pair_OK Pre) eqn:EPre; [|discriminate].
  destruct (pair_OK (pair_of [] (delete key o) (key, schema))); [|discriminate].
  destruct (forallb pair_OK Post) eqn:EPost; [|discriminate].
  cbn [andb] in *. injection H0 as <-.
  rewrite (valid_properties_quiet _ _ Hqpre EPre).
  rewrite (valid_properties_quiet _ _ Hqpost' EPost).
  assert (pair_of [] (<[key := v]> o) (key, schema) =
          {| pair_key := key; pair_value := fst (schema [key] v);
             alwaysSet := true |}) as ->.
  { unfold pair_of, property. cbn [fst snd app]. rewrite get_insert.
    rewrite bool_decide_eq_true_2 by (rewrite lookup_insert_eq; eauto).
    reflexivity. }
  unfold property_issues at 1, property. cbn [fst snd app].
  rewrite get_insert. unfold pair_OK at 1. cbn [pair_value].
  destruct (schema [key] v) as [r issues]. cbn [fst snd].
  rewrite app_nil_r.
  destruct r as [w|w|]; try reflexivity.
  do 2 f_equal. rewrite !fold_left_app. cbn [fold_left].
  assert (Forall (fun p => pair_key p <> key) Post) as HPost.
  { apply Forall_forall. intros p Hp.
    apply list_elem_of_In, in_map_iff in Hp as (kv & <- & Hkv).
    rewrite Forall_forall in Hpost. apply Hpost, list_elem_of_In, Hkv. }
  rewrite <- (fold_pair_set_insert _ _ _ _ HPost).
  rewrite (insert_pair_set _ (pair_of [] (delete key o) (key, schema)) w).
  f_equal. unfold pair_set at 1, set_property.
  cbn [pair_value alwaysSet pair_key].
  destruct w; reflexivity.
Qed.

Lemma lookup_fold_pair_set pairs key : forall fo,
  Forall (fun p => pair_key p <> key) pairs ->
  fold_left pair_set pairs fo !! key = fo !! key.
Proof.
  induction pairs as [|p rest IH]; intros fo H; [reflexivity|].
  inversion H as [|? ? Hp Hrest]; subst. cbn [fold_left].
  rewrite (IH _ Hrest). unfold pair_set, set_property.
  destruct (pair_value p) as [v|v|]; try reflexivity;
    destruct v, (alwaysSet p); try reflexivity;
    apply lookup_insert_ne; exact Hp.
Qed.

(** The property of a valid object is the valid value of its parser; it
    is absent only if that value is [undefined] and the input has no
    such key. *)
Theorem success_property shape o r key schema :
  NoDup (map fst shape) ->
  In (key, schema) shape ->
  safeParse (ZodObject shape) (JObject o) = success (JObject r) ->
  exists w issues,
    schema [key] (get o key) = (OK w, issues) /\
    r !! key = match w, o !! key with
               | JUndefined, None => None
               | _, _ => Some w
               end.
Proof.
  intros Hnd Hin H. rewrite ZodObject_safeParse in H.
  destruct (in_split _ _ Hin) as (pre & post & ->).
  destruct (other_keys _ _ _ _ Hnd) as [Hpre Hpost].
  rewrite !map_app, !forallb_app in H. cbn [map forallb] in H.
  change (pair_of [] o (key, schema)) with
    {| pair_key := key; pair_value := fst (schema [key] (get o key));
       alwaysSet := bool_decide (is_Some (o !! key)) |} in H.
  destruct (forallb pair_OK (map (pair_of [] o) pre)); [|discriminate].
  match type of H with
  | context [pair_OK ?p && _] => destruct (pair_OK p) eqn:EOK; [|discriminate]
  end.
  destruct (forallb pair_OK (map (pair_of [] o) post)); [|discriminate].
  cbn [andb] in H. injection H as <-.
  assert (forall l, Forall (fun kv => fst kv <> key) l ->
            Forall (fun p => pair_key p <> key) (map (pair_of [] o) l)) as Hkeys.
  { intros l Hl. apply Forall_forall. intros p Hp.
    apply list_elem_of_In, in_map_iff in Hp as (kv & <- & Hkv).
    rewrite Forall_forall in Hl. apply Hl, list_elem_of_In, Hkv. }
  rewrite fold_left_app. cbn [fold_left].
  rewrite (lookup_fold_pair_set _ _ _ (Hkeys _ Hpost)).
  unfold pair_OK in EOK. cbn [pair_value] in EOK.
  unfold pair_set at 1, set_property.
  cbn [pair_value pair_key alwaysSet].
  destruct (schema [key] (get o key)) as [res issues]. cbn [fst] in *.
  destruct res as [w| |]; try discriminate.
  exists w, issues. split; [reflexivity|].
  destruct (o !! key) as [v|] eqn:Eo.
  - rewrite bool_decide_eq_true_2 by eauto.
    destruct w; apply lookup_insert_eq.
  - rewrite bool_decide_eq_false_2 by (intros [? ?]; discriminate).
    destruct w; try apply lookup_insert_eq.
    rewrite (lookup_fold_pair_set _ _ _ (Hkeys _ Hpre)). apply lookup_empty.
Qed.

End Objects.

(* ===================================================================== *)
(** ** Parsers report no issue with a valid result *)
(* ===================================================================== *)

Create HintDb quiet discriminated.

Section Quiet.

Lemma quiet_default d schema : quiet schema -> quiet (default d schema).
Proof.
  intros H path data v issues. unfold default.
  destruct data; apply H.
Qed.

Lemma quiet_refine check schema : quiet schema -> quiet (refine check schema).
Proof.
  intros H path data v issues. unfold refine.
  destruct (schema path data) as [r iss] eqn:E.
  destruct r as [w|w|]; [|destruct (check w); discriminate | discriminate].
  destruct (check w); [|discriminate].
  intros [= <- <-]. eapply H, E.
Qed.

Lemma quiet_transform f schema : quiet schema -> quiet (transform f schema).
Proof.
  intros H path data v issues. unfold transform.
  destruct (schema path data) as [r iss] eqn:E.
  destruct r as [w|w|]; try discriminate.
  intros [= <- <-]. eapply H, E.
Qed.

Lemma string_checks_quiet path s checks : forall acc v issues,
  (forall w, fst acc = OK w -> snd acc = []) ->
  fold_left (string_check path s) checks acc = (OK v, issues) -> issues = [].
Proof.
  induction checks as [|c rest IH]; intros acc v issues Hacc; cbn [fold_left].
  - intros E. rewrite E in Hacc. eapply Hacc. reflexivity.
  - apply IH. intros w. unfold string_check.
    destruct c; match goal with |- context [if ?b then _ else _] =>
      destruct b end; cbn [fst snd]; try apply Hacc;
      destruct (fst acc); discriminate.
Qed.

Lemma quiet_ZodString checks : quiet (ZodString checks).
Proof.
  intros path data v issues. unfold ZodString.
  destruct data; try discriminate.
  apply string_checks_quiet. reflexivity.
Qed.

Lemma number_checks_quiet path x checks : forall acc v issues,
  (forall w, fst acc = OK w -> snd acc = []) ->
  fold_left (number_check path x) checks acc = (OK v, issues) -> issues = [].
Proof.
  induction checks as [|c rest IH]; intros acc v issues Hacc; cbn [fold_left].
  - intros E. rewrite E in Hacc. eapply Hacc. reflexivity.
  - apply IH. intros w. unfold number_check.
    destruct c; match goal with |- context [if ?b then _ else _] =>
      destruct b end; cbn [fst snd]; try apply Hacc;
      destruct (fst acc); discriminate.
Qed.

Lemma quiet_ZodNumber checks : quiet (ZodNumber checks).
Proof.
  intros path data v issues. unfold ZodNumber.
  destruct data; try discriminate.
  destruct (isNaN (JNumber x)); [discriminate|].
  apply number_checks_quiet. reflexivity.
Qed.

Lemma union_options_quiet options path data : forall first_dirty collected,
  (forall d, first_dirty = Some d -> forall w, fst d <> OK w) ->
  forall v issues,
  union_options options path data first_dirty collected = (OK v, issues) ->
  issues = [].
Proof.
  induction options as [|option rest IH]; intros fd collected Hfd v issues;
    cbn [union_options].
  - destruct fd as [d|]; [|discriminate].
    intros E. exfalso. apply (Hfd d eq_refl v). rewrite E. reflexivity.
  - destruct (option path data) as [r iss]. destruct r as [w|w|].
    + intros [= _ <-]. reflexivity.
    + apply IH. intros d Hd. destruct fd as [d'|].
      * apply Hfd, Hd.
      * injection Hd as <-. discriminate.
    + apply IH, Hfd.
Qed.

Lemma quiet_ZodUnion options : quiet (ZodUnion options).
Proof.
  intros path data v issues. unfold ZodUnion.
  apply union_options_quiet. discriminate.
Qed.

Lemma quiet_nativeEnum values : quiet (nativeEnum values).
Proof.
  intros path data v issues. unfold nativeEnum.
  destruct (getParsedType data); try discriminate;
    destruct (includes _ data); try discriminate;
    intros [= _ <-]; reflexivity.
Qed.

End Quiet.

#[local] Hint Resolve quiet_default quiet_refine quiet_transform
  quiet_ZodString quiet_ZodNumber quiet_ZodUnion quiet_nativeEnum : quiet.

(* ===================================================================== *)
(** ** The shape of CNBSchema *)
(* ===================================================================== *)

Section Shape.
Variable env : ProcessEnv.

(** The ten properties of [CNBSchema], those of [UserCNBSchema] first. *)
Lemma CNBSchema_shape_eq :
  CNBSchema_shape env =
  [("amount", number_field 1 10000 20 20);
   ("currency", enum_field PaymentCurrency "UAH");
   ("action", enum_field PaymentAction "PAY");
   ("subscribe_periodicity", enum_field LiqpayPeriodicity "MONTH");
   ("public_key", public_key_field env);
   ("version", number_field 1 3 3 3);
   ("description", default (JString default_description) ShortStringSchema);
   ("language", enum_field PaymentLanguage "UK");
   ("subscribe_date_start", string_field (lit "2024-01-01 00:00:00"));
   ("result_url", string_field (default_result_url env))].
Proof. reflexivity. Qed.

Lemma CNBSchema_keys : NoDup (map fst (CNBSchema_shape env)).
Proof.
  rewrite CNBSchema_shape_eq. cbn [map fst].
  apply (bool_decide_unpack _). vm_compute. reflexivity.
Qed.

Lemma CNBSchema_quiet : Forall (fun kv => quiet (snd kv)) (CNBSchema_shape env).
Proof.
  rewrite CNBSchema_shape_eq.
  unfold number_field, enum_field, public_key_field, string_field,
    ShortStringSchema, MaybeStringifiedNumberSchema.
  repeat constructor; cbn [snd]; auto 6 with quiet.
Qed.

End Shape.

(* ===================================================================== *)
(** ** Numeric fields: amount and version *)
(* ===================================================================== *)

Section NumericFields.
Variables lo hi d : Z.
Hypothesis exact_lo : exact lo.
Hypothesis exact_hi : exact hi.

Lemma isNaN_in_range x : isNaN (JNumber x) = true -> in_range lo hi x = false.
Proof. unfold isNaN. simpl. destruct x; try discriminate. reflexivity. Qed.

(** On a number or a string, the field is valid exactly when the numeric
    value passes the checks; otherwise it reports issues, all of them at
    its own path. *)
Lemma number_field_numeric path v x :
  numeric_value v = Some x ->
  number_field_result lo hi d path v =
    (if in_range lo hi x then OK (JNumber x)
     else fst (number_field_result lo hi d path v),
     if in_range lo hi x then []
     else snd (number_field_result lo hi d path v)) /\
  (in_range lo hi x = false ->
   (forall w, fst (number_field_result lo hi d path v) <> OK w) /\
   at_path path (snd (number_field_result lo hi d path v))).
Proof.
  unfold at_path.
  destruct v as [| |b|y|s|l|o]; try discriminate; intros [= <-];
    unfold number_field_result, checked, union_mismatch; cbv zeta.
  - destruct (isNaN (JNumber y)) eqn:E.
    + rewrite (isNaN_in_range _ E). cbn [fst snd]. repeat split; try discriminate.
      repeat constructor.
    + destruct (in_range lo hi y); cbn [fst snd]; repeat split; try discriminate.
      repeat constructor.
  - destruct (isNaN (JNumber (StringToNumber s))) eqn:E.
    + rewrite (isNaN_in_range _ E). cbn [fst snd]. repeat split; try discriminate.
      repeat constructor.
    + destruct (in_range lo hi (StringToNumber s)); cbn [fst snd];
        repeat split; try discriminate.
      repeat constructor.
Qed.

(** A valid result of the field is a number that passes the checks. *)
Lemma number_field_OK path data w issues :
  number_field_result lo hi d path data = (OK w, issues) ->
  exists x, w = JNumber x /\ in_range lo hi x = true.
Proof.
  unfold number_field_result, checked, union_mismatch.
  destruct data as [| |b|y|s|l|o]; try discriminate; cbv zeta.
  - destruct (in_range lo hi (F d)) eqn:E; [|discriminate].
    intros [= <- _]. eauto.
  - destruct (isNaN (JNumber y)); [discriminate|].
    destruct (in_range lo hi y) eqn:E; [|discriminate].
    intros [= <- _]. eauto.
  - destruct (isNaN (JNumber (StringToNumber s))); [discriminate|].
    destruct (in_range lo hi (StringToNumber s)) eqn:E; [|discriminate].
    intros [= <- _]. eauto.
Qed.

End NumericFields.

Section Claims.
Variable env : ProcessEnv.

Lemma amount_in_shape :
  In ("amount", number_field 1 10000 20 20) (CNBSchema_shape env).
Proof. rewrite CNBSchema_shape_eq. left. reflexivity. Qed.

Lemma version_in_shape :
  In ("version", number_field 1 3 3 3) (CNBSchema_shape env).
Proof. rewrite CNBSchema_shape_eq. do 5 right. left. reflexivity. Qed.

Lemma F20_number : isNaN (JNumber (F 20)) = false.
Proof. vm_compute. reflexivity. Qed.

Lemma F3_number : isNaN (JNumber (F 3)) = false.
Proof. vm_compute. reflexivity. Qed.

(** Only an object is parsed to a valid result, and the result is an
    object. *)
Lemma CNBSchema_success input r :
  safeParse (CNBSchema env) input = success r ->
  exists o ro, input = JObject o /\ r = JObject ro.
Proof.
  destruct input as [| |b|x|s|l|o]; try discriminate.
  unfold CNBSchema. rewrite ZodObject_safeParse.
  destruct (forallb _ _); [|discriminate]. intros [= <-]. eauto.
Qed.

(** C1. An integer of [1, 10000] supplied as the amount, as a number, as
    its decimal numeral or as any string that converts to it, is accepted
    whenever the rest of the input is: validation succeeds, and the
    amount of the result is the number itself, not a string. *)
Theorem amount_integer_accepted o r0 n v :
  1 <= n <= 10000 ->
  supplies n v ->
  safeParse (CNBSchema env) (JObject (delete "amount" o))
    = success (JObject r0) ->
  safeParse (CNBSchema env) (JObject (<["amount" := v]> o))
    = success (JObject (<["amount" := JNumber (F n)]> r0)) /\
  integer_value (F n) = Some n.
Proof.
  intros Hn Hv Hrest.
  destruct (small_integer n Hn) as (Hint & Hnan & Hnum).
  split; [|exact Hint].
  unfold CNBSchema in *.
  rewrite (replace_property _ _ _ _ v r0 (CNBSchema_keys env)
             (CNBSchema_quiet env) amount_in_shape Hrest).
  rewrite (number_field_spec _ _ _ _ _ _ F20_number).
  assert (numeric_value v = Some (F n)) as Hx.
  { destruct Hv as [| |s Hs]; cbn [numeric_value]; congruence. }
  destruct (number_field_numeric 1 10000 20 ["amount"] v _ Hx) as [-> _].
  assert (in_range 1 10000 (F n) = true) as ->.
  { apply (in_range_spec _ _ _ exact_1 exact_10000). eauto. }
  reflexivity.
Qed.

(** C2. An amount whose numeric value is not an integer of [1, 10000]
    (out of range, fractional, infinite, or a string that converts to
    no number) fails validation with an issue at the amount field;
    and the amount of every valid result is an integer of [1, 10000]. *)
Theorem amount_out_of_range_rejected o v x input r :
  (numeric_value v = Some x ->
   (forall n, integer_value x = Some n -> ~ 1 <= n <= 10000) ->
   exists issues,
     safeParse (CNBSchema env) (JObject (<["amount" := v]> o)) = error issues /\
     exists i, In i issues /\ issue_path i = ["amount"]) /\
  (safeParse (CNBSchema env) input = success r ->
   exists ro y n,
     r = JObject ro /\ ro !! "amount" = Some (JNumber y) /\
     integer_value y = Some n /\ 1 <= n <= 10000).
Proof.
  split.
  - intros Hx Hbad.
    assert (in_range 1 10000 x = false) as Hrange.
    { apply not_true_is_false. intros H.
      apply (in_range_spec _ _ _ exact_1 exact_10000) in H as (n & Hn & Hle).
      exact (Hbad n Hn Hle). }
    destruct (number_field_numeric 1 10000 20 ["amount"] v _ Hx)
      as [_ Hfail].
    destruct (Hfail Hrange) as [Hstatus [Hne Hpath]].
    rewrite <- (number_field_spec 1 10000 20 20 _ _ F20_number),
      <- (get_insert o "amount" v) in Hstatus.
    destruct (invalid_property_fails _ _ _ _ amount_in_shape Hstatus)
      as (issues & Herr & Hincl).
    exists issues. split; [exact Herr|].
    rewrite get_insert, (number_field_spec _ _ _ _ _ _ F20_number) in Hincl.
    destruct (snd (number_field_result 1 10000 20 ["amount"] v))
      as [|i rest]; [congruence|].
    exists i. split; [apply Hincl; left; reflexivity|].
    inversion Hpath; assumption.
  - intros H. destruct (CNBSchema_success _ _ H) as (oi & ro & -> & ->).
    destruct (success_property _ _ _ _ _ (CNBSchema_keys env)
                amount_in_shape H) as (w & issues & Hw & Hro).
    rewrite (number_field_spec _ _ _ _ _ _ F20_number) in Hw.
    apply number_field_OK in Hw as (y & -> & Hy).
    apply (in_range_spec _ _ _ exact_1 exact_10000) in Hy as (n & Hn & Hle).
    exists ro, y, n. repeat split; try assumption; lia.
Qed.

(** C6. With the rest of the input valid, a version given as a number or
    as a string is accepted if and only if its numeric value is an
    integer of [1, 3]; the accepted version is that number; and the
    issues of a rejected one are all at the version field. *)
Theorem version_accepted_iff o r0 v x :
  numeric_value v = Some x ->
  safeParse (CNBSchema env) (JObject (delete "version" o))
    = success (JObject r0) ->
  let result := safeParse (CNBSchema env) (JObject (<["version" := v]> o)) in
  (is_success result = true <->
   exists n, integer_value x = Some n /\ 1 <= n <= 3) /\
  ((exists n, integer_value x = Some n /\ 1 <= n <= 3) ->
   result = success (JObject (<["version" := JNumber x]> r0))) /\
  (forall issues, result = error issues -> at_path ["version"] issues).
Proof.
  intros Hx Hrest result. subst result. unfold CNBSchema in *.
  rewrite (replace_property _ _ _ _ v r0 (CNBSchema_keys env)
             (CNBSchema_quiet env) version_in_shape Hrest).
  rewrite (number_field_spec _ _ _ _ _ _ F3_number).
  destruct (number_field_numeric 1 3 3 ["version"] v _ Hx) as [Hres Hfail].
  rewrite <- (in_range_spec _ _ _ exact_1 exact_3).
  destruct (in_range 1 3 x).
  - rewrite Hres. cbn [is_success]. repeat split; discriminate.
  - destruct (Hfail eq_refl) as [Hstatus Hat]. clear Hres Hfail.
    destruct (number_field_result 1 3 3 ["version"] v) as [res issues].
    cbn [fst snd] in *.
    destruct res as [w|w|]; [exfalso; eapply Hstatus; reflexivity| |];
      cbn [is_success]; (split; [split; discriminate|]);
      (split; [discriminate|]); intros ? [= <-]; exact Hat.
Qed.

(** *** The other fields *)

Lemma includes_In values s :
  includes values (JString s) = true <-> In s values.
Proof.
  unfold includes. rewrite existsb_exists. split.
  - intros (t & Ht & Heq). apply bool_decide_eq_true in Heq. congruence.
  - intros H. exists s. split; [exact H|]. apply bool_decide_eq_true.
    reflexivity.
Qed.

Lemma enum_field_string values name path s :
  enum_field values name path (JString s) =
  if includes (getValidEnumValues values) (JString s)
  then (OK (JString s), [])
  else (INVALID,
        [invalid_enum_value (getValidEnumValues values) (JString s) path]).
Proof. reflexivity. Qed.

Lemma public_key_field_string path s :
  public_key_field env path (JString s) =
  if bool_decide (s = LIQPAY_PUBLIC_KEY env) then (OK (JString s), [])
  else (DIRTY (JString s), [custom path]).
Proof.
  unfold public_key_field, default, refine, ZodString, strict_equals_string.
  cbn [fold_left]. destruct (bool_decide (s = LIQPAY_PUBLIC_KEY env));
    reflexivity.
Qed.

Lemma public_key_field_default path :
  public_key_field env path JUndefined =
  (OK (JString (LIQPAY_PUBLIC_KEY env)), []).
Proof.
  unfold public_key_field, default, refine, ZodString, strict_equals_string.
  cbn [fold_left]. rewrite bool_decide_eq_true_2 by reflexivity. reflexivity.
Qed.

Lemma string_field_string d path s :
  string_field d path (JString s) = (OK (JString s), []).
Proof. reflexivity. Qed.

Lemma public_key_in_shape :
  In ("public_key", public_key_field env) (CNBSchema_shape env).
Proof. rewrite CNBSchema_shape_eq. do 4 right. left. reflexivity. Qed.

Lemma subscribe_date_start_in_shape :
  In ("subscribe_date_start", string_field (lit "2024-01-01 00:00:00"))
    (CNBSchema_shape env).
Proof. rewrite CNBSchema_shape_eq. do 8 right. left. reflexivity. Qed.

Lemma result_url_in_shape :
  In ("result_url", string_field (default_result_url env))
    (CNBSchema_shape env).
Proof. rewrite CNBSchema_shape_eq. do 9 right. left. reflexivity. Qed.

Lemma enum_field_in_shape field allowed :
  In (field, allowed) enum_fields ->
  exists values name,
    In (field, enum_field values name) (CNBSchema_shape env) /\
    getValidEnumValues values = allowed.
Proof.
  rewrite CNBSchema_shape_eq. unfold enum_fields.
  intros [[= <- <-]|[[= <- <-]|[[= <- <-]|[[= <- <-]|[]]]]].
  - exists PaymentCurrency, "UAH". split; [|reflexivity].
    do 1 right. left. reflexivity.
  - exists PaymentAction, "PAY". split; [|reflexivity].
    do 2 right. left. reflexivity.
  - exists LiqpayPeriodicity, "MONTH". split; [|reflexivity].
    do 3 right. left. reflexivity.
  - exists PaymentLanguage, "UK". split; [|reflexivity].
    do 7 right. left. reflexivity.
Qed.

(** C4. Each enum field accepts every string of its closed set, the rest
    of the input being valid, and rejects every other string with an
    [invalid_enum_value] issue at the field; GBP is not a currency of
    the set. *)
Theorem enum_fields_closed field allowed o r0 s :
  In (field, allowed) enum_fields ->
  (In s allowed ->
   safeParse (CNBSchema env) (JObject (delete field o))
     = success (JObject r0) ->
   safeParse (CNBSchema env) (JObject (<[field := JString s]> o))
     = success (JObject (<[field := JString s]> r0))) /\
  (~ In s allowed ->
   exists issues,
     safeParse (CNBSchema env) (JObject (<[field := JString s]> o))
       = error issues /\
     In (invalid_enum_value allowed (JString s) [field]) issues) /\
  (field = "currency" -> ~ In (lit "GBP") allowed).
Proof.
  intros Hfield.
  destruct (enum_field_in_shape _ _ Hfield) as (values & name & Hin & <-).
  unfold CNBSchema. repeat split.
  - intros Hs Hrest.
    rewrite (replace_property _ _ _ _ (JString s) r0 (CNBSchema_keys env)
               (CNBSchema_quiet env) Hin Hrest).
    rewrite enum_field_string.
    apply includes_In in Hs. rewrite Hs. reflexivity.
  - intros Hs.
    assert (includes (getValidEnumValues values) (JString s) = false) as Hno.
    { apply not_true_is_false. rewrite includes_In. exact Hs. }
    destruct (invalid_property_fails (CNBSchema_shape env)
                (<[field := JString s]> o) field _ Hin)
      as (issues & Herr & Hincl).
    + rewrite get_insert, enum_field_string, Hno. discriminate.
    + exists issues. split; [exact Herr|]. apply Hincl.
      rewrite get_insert, enum_field_string, Hno. left. reflexivity.
  - intros ->. clear Hin. unfold enum_fields in Hfield.
    destruct Hfield as [[= <-]|[[=]|[[=]|[[=]|[]]]]].
    vm_compute. intuition discriminate.
Qed.

(** C5. An omitted public key is filled with the configured one; a
    supplied string that differs from it fails validation with a
    [custom] issue at the field, the only issue when the rest of the
    input is valid; the configured key itself is accepted. *)
Theorem public_key_checked o r r0 s :
  (o !! "public_key" = None ->
   safeParse (CNBSchema env) (JObject o) = success (JObject r) ->
   r !! "public_key" = Some (JString (LIQPAY_PUBLIC_KEY env))) /\
  (s <> LIQPAY_PUBLIC_KEY env ->
   (exists issues,
      safeParse (CNBSchema env) (JObject (<["public_key" := JString s]> o))
        = error issues /\
      In (custom ["public_key"]) issues) /\
   (safeParse (CNBSchema env) (JObject (delete "public_key" o))
      = success (JObject r0) ->
    safeParse (CNBSchema env) (JObject (<["public_key" := JString s]> o))
      = error [custom ["public_key"]])) /\
  (safeParse (CNBSchema env) (JObject (delete "public_key" o))
     = success (JObject r0) ->
   safeParse (CNBSchema env)
     (JObject (<["public_key" := JString (LIQPAY_PUBLIC_KEY env)]> o))
   = success
       (JObject (<["public_key" := JString (LIQPAY_PUBLIC_KEY env)]> r0))).
Proof.
  unfold CNBSchema. repeat split.
  - intros Ho H.
    destruct (success_property _ _ _ _ _ (CNBSchema_keys env)
                public_key_in_shape H) as (w & issues & Hw & Hr).
    unfold get in Hw. rewrite Ho, public_key_field_default in Hw.
    injection Hw as <- _. rewrite Hr. reflexivity.
  - destruct (invalid_property_fails (CNBSchema_shape env)
                (<["public_key" := JString s]> o) _ _ public_key_in_shape)
      as (issues & Herr & Hincl).
    + rewrite get_insert, public_key_field_string.
      rewrite bool_decide_eq_false_2 by assumption. discriminate.
    + exists issues. split; [exact Herr|]. apply Hincl.
      rewrite get_insert, public_key_field_string.
      rewrite bool_decide_eq_false_2 by assumption. left. reflexivity.
  - intros Hrest.
    rewrite (replace_property _ _ _ _ (JString s) r0 (CNBSchema_keys env)
               (CNBSchema_quiet env) public_key_in_shape Hrest).
    rewrite public_key_field_string.
    rewrite bool_decide_eq_false_2 by assumption. reflexivity.
  - intros Hrest.
    rewrite (replace_property _ _ _ _ _ r0 (CNBSchema_keys env)
               (CNBSchema_quiet env) public_key_in_shape Hrest).
    rewrite public_key_field_string.
    rewrite bool_decide_eq_true_2 by reflexivity. reflexivity.
Qed.

(** C10. Any two strings are accepted as the start date of the
    subscription and as the result URL, the rest of the input being
    valid, and the result holds them unchanged. *)
Theorem free_strings_accepted o r0 date url :
  safeParse (CNBSchema env)
    (JObject (delete "subscribe_date_start" (delete "result_url" o)))
    = success (JObject r0) ->
  safeParse (CNBSchema env)
    (JObject (<["subscribe_date_start" := JString date]>
                (<["result_url" := JString url]> o)))
  = success
      (JObject (<["subscribe_date_start" := JString date]>
                  (<["result_url" := JString url]> r0))).
Proof.
  intros Hrest. unfold CNBSchema in *.
  rewrite (replace_property _ _ _ _ (JString date)
             (<["result_url" := JString url]> r0) (CNBSchema_keys env)
             (CNBSchema_quiet env) subscribe_date_start_in_shape).
  - rewrite string_field_string. reflexivity.
  - rewrite delete_insert_ne by discriminate.
    rewrite (replace_property _ _ _ _ (JString url) r0 (CNBSchema_keys env)
               (CNBSchema_quiet env) result_url_in_shape).
    + rewrite string_field_string. reflexivity.
    + rewrite delete_delete. exact Hrest.
Qed.

(** *** Strings that convert to no number, and blank strings *)

Lemma trimStart_blank s : blank s -> trimStart s = [].
Proof.
  induction 1 as [|c s Hc _ IH]; [reflexivity|].
  cbn [trimStart]. rewrite Hc. exact IH.
Qed.

Lemma StringToNumber_blank s : blank s -> StringToNumber s = S754_zero false.
Proof.
  intros H. unfold StringToNumber, trim.
  rewrite (trimStart_blank _ H). reflexivity.
Qed.

(** C9. A blank amount, empty or of white space only, converts to the
    number 0: the conversion branch of the union is valid, the range
    check of the amount is what fails (0 is too small), and validation
    fails with the single [custom] issue of an out-of-range amount. *)
Theorem blank_amount_fails_range_check o r0 s :
  blank s ->
  StringToNumber s = S754_zero false /\
  MaybeStringifiedNumberSchema ["amount"] (JString s)
    = (OK (JNumber (S754_zero false)), []) /\
  safeParse LiqpayAmountSchema (JNumber (StringToNumber s))
    = error [too_small t_number 1 []] /\
  (exists issues,
     safeParse (CNBSchema env) (JObject (<["amount" := JString s]> o))
       = error issues /\
     In (custom ["amount"]) issues) /\
  (safeParse (CNBSchema env) (JObject (delete "amount" o))
     = success (JObject r0) ->
   safeParse (CNBSchema env) (JObject (<["amount" := JString s]> o))
     = error [custom ["amount"]]).
Proof.
  intros Hs. pose proof (StringToNumber_blank _ Hs) as H0.
  assert (number_field 1 10000 20 20 ["amount"] (JString s)
          = (DIRTY (JNumber (S754_zero false)), [custom ["amount"]])) as Hfield.
  { rewrite (number_field_spec _ _ _ _ _ _ F20_number).
    unfold number_field_result. rewrite H0. vm_compute. reflexivity. }
  split; [exact H0|]. split; [|split; [|split]].
  - rewrite MaybeStringifiedNumberSchema_spec. rewrite H0. reflexivity.
  - rewrite H0. vm_compute. reflexivity.
  - destruct (invalid_property_fails (CNBSchema_shape env)
                (<["amount" := JString s]> o) _ _ amount_in_shape)
      as (issues & Herr & Hincl).
    + rewrite get_insert, Hfield. discriminate.
    + exists issues. split; [exact Herr|]. apply Hincl.
      rewrite get_insert, Hfield. left. reflexivity.
  - intros Hrest. unfold CNBSchema in *.
    rewrite (replace_property _ _ _ _ (JString s) r0 (CNBSchema_keys env)
               (CNBSchema_quiet env) amount_in_shape Hrest).
    rewrite Hfield. reflexivity.
Qed.

Lemma numeric_field_in_shape field lo hi :
  In (field, (lo, hi)) numeric_fields ->
  exact lo /\ exact hi /\
  exists d,
    In (field, number_field lo hi d d) (CNBSchema_shape env) /\
    isNaN (JNumber (F d)) = false.
Proof.
  unfold numeric_fields. intros [[= <- <- <-]|[[= <- <- <-]|[]]].
  - split; [exact exact_1|]. split; [exact exact_10000|].
    exists 20. split; [exact amount_in_shape | exact F20_number].
  - split; [exact exact_1|]. split; [exact exact_3|].
    exists 3. split; [exact version_in_shape | exact F3_number].
Qed.

(** C7, as the code has it. For amount and version: a raw value that is
    neither a string, a number nor [undefined] fails validation with an
    [invalid_union] issue at the field, which holds the type mismatch of
    each branch; a string that converts to no number fails with
    [custom] issues at the field, and so does a number out of range:
    these two failures have the same issue code and path. *)
Theorem numeric_field_failures field lo hi o r0 v s x :
  In (field, (lo, hi)) numeric_fields ->
  (numeric_value v = None -> v <> JUndefined ->
   exists issues,
     safeParse (CNBSchema env) (JObject (<[field := v]> o)) = error issues /\
     In (invalid_union
           [[invalid_type (lit "string") (getParsedType v) [field]];
            [invalid_type (lit "number") (getParsedType v) [field]]] [field])
        issues) /\
  (safeParse (CNBSchema env) (JObject (delete field o))
     = success (JObject r0) ->
   (StringToNumber s = NaN ->
    safeParse (CNBSchema env) (JObject (<[field := JString s]> o))
      = error [custom [field]; custom [field]]) /\
   (isNaN (JNumber x) = false ->
    (forall n, integer_value x = Some n -> ~ lo <= n <= hi) ->
    safeParse (CNBSchema env) (JObject (<[field := JNumber x]> o))
      = error [custom [field]])).
Proof.
  intros Hfield.
  destruct (numeric_field_in_shape _ _ _ Hfield)
    as (Hlo & Hhi & d & Hin & Hd).
  unfold CNBSchema. split; [|intros Hrest; split].
  - intros Hv Hundef.
    assert (number_field lo hi d d [field] v
            = union_mismatch (getParsedType v) [field]) as Hres.
    { rewrite (number_field_spec _ _ _ _ _ _ Hd).
      destruct v; try discriminate; try reflexivity. congruence. }
    destruct (invalid_property_fails (CNBSchema_shape env)
                (<[field := v]> o) _ _ Hin) as (issues & Herr & Hincl).
    + rewrite get_insert, Hres. discriminate.
    + exists issues. split; [exact Herr|]. apply Hincl.
      rewrite get_insert, Hres. left. reflexivity.
  - intros Hs.
    rewrite (replace_property _ _ _ _ (JString s) r0 (CNBSchema_keys env)
               (CNBSchema_quiet env) Hin Hrest).
    rewrite (number_field_spec _ _ _ _ _ _ Hd).
    unfold number_field_result. rewrite Hs. reflexivity.
  - intros Hx Hbad.
    rewrite (replace_property _ _ _ _ (JNumber x) r0 (CNBSchema_keys env)
               (CNBSchema_quiet env) Hin Hrest).
    rewrite (number_field_spec _ _ _ _ _ _ Hd).
    unfold number_field_result, checked. rewrite Hx.
    assert (in_range lo hi x = false) as ->.
    { apply not_true_is_false. intros H.
      apply (in_range_spec _ _ _ Hlo Hhi) in H as (n & Hn & Hle).
      exact (Hbad n Hn Hle). }
    reflexivity.
Qed.

End Claims.

(* ===================================================================== *)
(** ** The defaults *)
(* ===================================================================== *)

Lemma get_empty key : get ∅ key = JUndefined.
Proof. reflexivity. Qed.

(** C3. The empty input is valid and yields the documented defaults,
    whatever the configured public key and base URL are; and the
    defaults, supplied as an input, are valid and returned unchanged:
    every default passes the validation of its field. *)
Theorem empty_input_defaults (key : option JSString) (base_url : JSString) :
  let env := {| env_LIQPAY_PUBLIC_KEY := key; env_URL := Some base_url |} in
  let defaults := documented_defaults (LIQPAY_PUBLIC_KEY env) base_url in
  safeParse (CNBSchema env) (JObject ∅) = success (JObject defaults) /\
  safeParse (CNBSchema env) (JObject defaults) = success (JObject defaults).
Proof.
  intros env defaults. unfold CNBSchema.
  rewrite !ZodObject_safeParse, !CNBSchema_shape_eq.
  cbn [map forallb fold_left]. unfold pair_of, property. cbn [fst snd app].
  split.
  - rewrite !get_empty, public_key_field_default.
    vm_compute. reflexivity.
  - change (get defaults "public_key") with (JString (LIQPAY_PUBLIC_KEY env)).
    rewrite public_key_field_string.
    rewrite (bool_decide_eq_true_2 (LIQPAY_PUBLIC_KEY env = _) eq_refl).
    change (get defaults "result_url")
      with (JString (base_url ++ lit "/donate/thankyou")).
    rewrite string_field_string.
    vm_compute. reflexivity.
Qed.

(* ===================================================================== *)
(** ** The theorems at concrete inputs *)
(* ===================================================================== *)

Lemma amount_integer_accepted_witness :
  safeParse (CNBSchema env0) (JObject (<["amount" := JString (lit "42")]> ∅))
    = success (JObject (<["amount" := JNumber (F 42)]> defaults0)) /\
  integer_value (F 42) = Some 42.
Proof.
  apply (amount_integer_accepted env0 ∅ defaults0 42 (JString (lit "42"))).
  - lia.
  - exact (as_numeral 42).
  - vm_compute. reflexivity.
Defined.

Lemma amount_out_of_range_rejected_witness :
  (exists issues,
     safeParse (CNBSchema env0) (JObject (<["amount" := JNumber (F 0)]> ∅))
       = error issues /\
     exists i, In i issues /\ issue_path i = ["amount"]) /\
  (exists ro y n,
     JObject defaults0 = JObject ro /\ ro !! "amount" = Some (JNumber y) /\
     integer_value y = Some n /\ 1 <= n <= 10000).
Proof.
  destruct (amount_out_of_range_rejected env0 ∅ (JNumber (F 0)) (F 0)
              (JObject ∅) (JObject defaults0)) as [Hfail Hvalid].
  split.
  - apply Hfail; [reflexivity|].
    intros n Hn. vm_compute in Hn. injection Hn as <-. lia.
  - apply Hvalid. vm_compute. reflexivity.
Defined.

Lemma version_accepted_iff_witness :
  safeParse (CNBSchema env0) (JObject (<["version" := JString (lit "2")]> ∅))
    = success (JObject (<["version" := JNumber (F 2)]> defaults0)).
Proof.
  refine (proj1 (proj2 (version_accepted_iff env0 ∅ defaults0
                          (JString (lit "2")) (F 2) _ _)) _).
  - vm_compute. reflexivity.
  - vm_compute. reflexivity.
  - exists 2. split; [vm_compute; reflexivity | lia].
Defined.

Lemma enum_fields_closed_witness :
  safeParse (CNBSchema env0) (JObject (<["currency" := JString (lit "USD")]> ∅))
    = success (JObject (<["currency" := JString (lit "USD")]> defaults0)) /\
  exists issues,
    safeParse (CNBSchema env0)
      (JObject (<["currency" := JString (lit "GBP")]> ∅)) = error issues /\
    In (invalid_enum_value [lit "UAH"; lit "USD"; lit "EUR"]
          (JString (lit "GBP")) ["currency"]) issues.
Proof.
  assert (In ("currency", [lit "UAH"; lit "USD"; lit "EUR"]) enum_fields)
    as Hfield by (left; reflexivity).
  split.
  - apply (proj1 (enum_fields_closed env0 _ _ ∅ defaults0 (lit "USD") Hfield)).
    + right. left. reflexivity.
    + vm_compute. reflexivity.
  - destruct (enum_fields_closed env0 _ _ ∅ defaults0 (lit "GBP") Hfield)
      as (_ & Hreject & Hgbp).
    apply Hreject, Hgbp. reflexivity.
Defined.

Lemma public_key_checked_witness :
  defaults0 !! "public_key" = Some (JString (lit "sandbox_i00000000")) /\
  safeParse (CNBSchema env0)
    (JObject (<["public_key" := JString (lit "wrong-key")]> ∅))
    = error [custom ["public_key"]] /\
  safeParse (CNBSchema env0)
    (JObject (<["public_key" := JString (lit "sandbox_i00000000")]> ∅))
    = success
        (JObject (<["public_key" := JString (lit "sandbox_i00000000")]>
                    defaults0)).
Proof.
  destruct (public_key_checked env0 ∅ defaults0 defaults0 (lit "wrong-key"))
    as (Homitted & Hwrong & Hright).
  split; [|split].
  - apply Homitted; [reflexivity | vm_compute; reflexivity].
  - apply Hwrong; [discriminate | vm_compute; reflexivity].
  - apply Hright. vm_compute. reflexivity.
Defined.

Lemma numeric_field_failures_witness :
  (exists issues,
     safeParse (CNBSchema env0) (JObject (<["amount" := JNull]> ∅))
       = error issues /\
     In (invalid_union
           [[invalid_type (lit "string") t_null ["amount"]];
            [invalid_type (lit "number") t_null ["amount"]]] ["amount"])
        issues) /\
  safeParse (CNBSchema env0) (JObject (<["amount" := JString (lit "abc")]> ∅))
    = error [custom ["amount"]; custom ["amount"]] /\
  safeParse (CNBSchema env0) (JObject (<["amount" := JNumber (F 0)]> ∅))
    = error [custom ["amount"]].
Proof.
  destruct (numeric_field_failures env0 "amount" 1 10000 ∅ defaults0 JNull
              (lit "abc") (F 0)) as [Htype Hrest].
  - left. reflexivity.
  - destruct Hrest as [Hstring Hrange]; [vm_compute; reflexivity|].
    split; [|split].
    + apply Htype; [reflexivity | discriminate].
    + apply Hstring. vm_compute. reflexivity.
    + apply Hrange; [vm_compute; reflexivity|].
      intros n Hn. vm_compute in Hn. injection Hn as <-. lia.
Defined.

Lemma blank_amount_fails_range_check_witness :
  blank (lit "  ") /\
  StringToNumber (lit "  ") = S754_zero false /\
  safeParse (CNBSchema env0) (JObject (<["amount" := JString (lit "  ")]> ∅))
    = error [custom ["amount"]].
Proof.
  assert (blank (lit "  ")) as Hblank by (repeat constructor).
  destruct (blank_amount_fails_range_check env0 ∅ defaults0 (lit "  ") Hblank)
    as (Hzero & _ & _ & _ & Hfail).
  split; [exact Hblank|]. split; [exact Hzero|].
  apply Hfail. vm_compute. reflexivity.
Defined.

Lemma free_strings_accepted_witness :
  safeParse (CNBSchema env0)
    (JObject (<["subscribe_date_start" := JString (lit "tomorrow")]>
                (<["result_url" := JString (lit "not a url")]> ∅)))
  = success
      (JObject (<["subscribe_date_start" := JString (lit "tomorrow")]>
                  (<["result_url" := JString (lit "not a url")]> defaults0))).
Proof.
  apply (free_strings_accepted env0 ∅ defaults0).
  vm_compute. reflexivity.
Defined.

(** *** A failed conversion is reported like a range failure *)

(** C7, as stated, fails: the issues reported for the amount 'abc' are
    those reported for the amount 0, [custom] at the amount field, so no
    kind of issue tells the failed conversion from the range failure. *)
Lemma conversion_failure_not_distinguished :
  safeParse (CNBSchema env0) (JObject (<["amount" := JString (lit "abc")]> ∅))
    = error [custom ["amount"]; custom ["amount"]] /\
  safeParse (CNBSchema env0) (JObject (<["amount" := JNumber (F 0)]> ∅))
    = error [custom ["amount"]] /\
  ~ distinguishable [custom ["amount"]; custom ["amount"]] [custom ["amount"]].
Proof.
  split; [vm_compute; reflexivity|]. split; [vm_compute; reflexivity|].
  intros (kind & (i & Hi & Htrue) & Hfalse).
  assert (i = custom ["amount"]) as ->.
  { destruct Hi as [<-|[<-|[]]]; reflexivity. }
  rewrite (Hfalse (custom ["amount"])) in Htrue; [discriminate|].
  left. reflexivity.
Qed.

(* ===================================================================== *)
(** ** Objects: what the result depends on, and what it holds *)
(* ===================================================================== *)

Section ObjectResults.

Implicit Types (shape : ZodRawShape) (o r fo : gmap string JSValue).
Implicit Types (p : ObjectPair) (key k : string).

Lemma pair_set_OK fo p w :
  pair_value p = OK w -> w <> JUndefined ->
  pair_set fo p = <[pair_key p := w]> fo.
Proof.
  intros Hp Hw. unfold pair_set, set_property. rewrite Hp.
  destruct w; try reflexivity. congruence.
Qed.

Lemma stable_defined schema path data w issues :
  stable schema -> schema path data = (OK w, issues) -> w <> JUndefined.
Proof. intros H E. exact (proj1 (H _ _ _ _ E)). Qed.

(** The pairs of two inputs that agree on the keys of the shape differ
    in [alwaysSet] only, which no valid pair of a stable parser reads. *)
Lemma fold_pair_set_ext shape o1 o2 :
  Forall (fun kv => stable (snd kv)) shape ->
  (forall kv, In kv shape -> get o1 (fst kv) = get o2 (fst kv)) ->
  forallb pair_OK (map (pair_of [] o1) shape)
    = forallb pair_OK (map (pair_of [] o2) shape) /\
  flat_map (property_issues [] o1) shape
    = flat_map (property_issues [] o2) shape /\
  forall fo,
    forallb pair_OK (map (pair_of [] o1) shape) = true ->
    fold_left pair_set (map (pair_of [] o1) shape) fo
      = fold_left pair_set (map (pair_of [] o2) shape) fo.
Proof.
  induction 1 as [|kv rest Hkv _ IH]; intros Hget.
  - split; [reflexivity|]. split; [reflexivity|]. intros; reflexivity.
  - assert (forall kv', In kv' rest -> get o1 (fst kv') = get o2 (fst kv'))
      as Hrest by (intros kv' Hin; apply Hget; right; exact Hin).
    destruct (IH Hrest) as (IH1 & IH2 & IH3).
    assert (property [] o1 kv = property [] o2 kv) as Hprop.
    { unfold property. rewrite (Hget kv) by (left; reflexivity). reflexivity. }
    cbn [map forallb flat_map fold_left].
    unfold pair_OK at 1 3, property_issues at 1 3.
    cbn [pair_of pair_value]. rewrite Hprop, IH1, IH2.
    split; [reflexivity|]. split; [reflexivity|].
    intros fo Hok. apply andb_prop in Hok as [Hok Hoks].
    rewrite <- IH1 in Hoks.
    unfold pair_OK in Hok. cbn [pair_of pair_value] in Hok.
    rewrite Hprop in Hok.
    destruct (property [] o2 kv) as [res issues] eqn:E.
    destruct res as [w|w|]; cbn [fst] in Hok; try discriminate Hok.
    assert (w <> JUndefined) as Hw by exact (stable_defined _ _ _ _ _ Hkv E).
    assert (pair_value (pair_of [] o1 kv) = OK w) as H1
      by (cbn [pair_of pair_value]; rewrite Hprop; reflexivity).
    assert (pair_value (pair_of [] o2 kv) = OK w) as H2
      by (cbn [pair_of pair_value]; rewrite E; reflexivity).
    rewrite (pair_set_OK fo _ w H1 Hw), (pair_set_OK fo _ w H2 Hw).
    cbn [pair_of pair_key]. apply IH3, Hoks.
Qed.

Theorem ZodObject_safeParse_ext shape o1 o2 :
  Forall (fun kv => stable (snd kv)) shape ->
  (forall kv, In kv shape -> get o1 (fst kv) = get o2 (fst kv)) ->
  safeParse (ZodObject shape) (JObject o1)
    = safeParse (ZodObject shape) (JObject o2).
Proof.
  intros Hst Hget. rewrite !ZodObject_safeParse.
  destruct (fold_pair_set_ext _ _ _ Hst Hget) as (H1 & H2 & H3).
  rewrite <- H1, <- H2.
  destruct (forallb pair_OK (map (pair_of [] o1) shape)) eqn:E; [|reflexivity].
  rewrite (H3 ∅ eq_refl). reflexivity.
Qed.

(** A valid object has no key that the shape has not. *)
Lemma success_other_keys shape o r key :
  safeParse (ZodObject shape) (JObject o) = success (JObject r) ->
  ~ In key (map fst shape) ->
  r !! key = None.
Proof.
  rewrite ZodObject_safeParse.
  destruct (forallb _ _); [|discriminate]. intros [= <-] Hkey.
  rewrite lookup_fold_pair_set; [apply lookup_empty|].
  apply Forall_forall. intros p Hp Heq.
  apply list_elem_of_In, in_map_iff in Hp as (kv & <- & Hkv).
  apply Hkey. rewrite <- Heq. cbn [pair_of pair_key]. apply in_map, Hkv.
Qed.

(** The property of a valid object, for a stable parser. *)
Lemma success_stable_property shape o r key schema :
  NoDup (map fst shape) ->
  Forall (fun kv => stable (snd kv)) shape ->
  In (key, schema) shape ->
  safeParse (ZodObject shape) (JObject o) = success (JObject r) ->
  exists w issues,
    schema [key] (get o key) = (OK w, issues) /\ r !! key = Some w /\
    get r key = w /\ forall path, schema path w = (OK w, []).
Proof.
  intros Hnd Hst Hin H.
  destruct (success_property _ _ _ _ _ Hnd Hin H) as (w & issues & Hw & Hr).
  rewrite Forall_forall in Hst.
  destruct (Hst _ (proj2 (list_elem_of_In _ _) Hin) _ _ _ _ Hw) as [Hdef Hfix].
  assert (r !! key = Some w) as Hr'.
  { rewrite Hr. destruct w; try reflexivity. congruence. }
  exists w, issues. repeat split; try assumption.
  unfold get. rewrite Hr'. reflexivity.
Qed.

(** Parsing a valid result again returns it. *)
Theorem ZodObject_idempotent shape o r :
  NoDup (map fst shape) ->
  Forall (fun kv => stable (snd kv)) shape ->
  safeParse (ZodObject shape) (JObject o) = success (JObject r) ->
  safeParse (ZodObject shape) (JObject r) = success (JObject r).
Proof.
  intros Hnd Hst H.
  assert (exists r', safeParse (ZodObject shape) (JObject r) = success (JObject r'))
    as [r' H'].
  { rewrite ZodObject_safeParse.
    assert (forallb pair_OK (map (pair_of [] r) shape) = true) as ->; [|eauto].
    apply forallb_forall. intros p Hp.
    apply in_map_iff in Hp as ([key schema] & <- & Hkv).
    destruct (success_stable_property _ _ _ _ _ Hnd Hst Hkv H)
      as (w & issues & _ & _ & Hget & Hfix).
    unfold pair_OK, pair_of, property. cbn [pair_value fst snd].
    rewrite Hget, Hfix. reflexivity. }
  rewrite H'. do 2 f_equal. apply map_eq. intros k.
  destruct (in_dec string_dec k (map fst shape)) as [Hk|Hk].
  - apply in_map_iff in Hk as ([key schema] & <- & Hkv). cbn [fst].
    destruct (success_stable_property _ _ _ _ _ Hnd Hst Hkv H)
      as (w & issues & _ & Hr & Hget & Hfix).
    destruct (success_stable_property _ _ _ _ _ Hnd Hst Hkv H')
      as (w' & issues' & Hw' & Hr' & _).
    rewrite Hget, Hfix in Hw'. injection Hw' as <- _. congruence.
  - rewrite (success_other_keys _ _ _ _ H Hk), (success_other_keys _ _ _ _ H' Hk).
    reflexivity.
Qed.

End ObjectResults.

(* ===================================================================== *)
(** ** The fields: stable, reporting, each at its own path *)
(* ===================================================================== *)

Section FieldKinds.
Variable env : ProcessEnv.

Lemma ShortStringSchema_string path s :
  ShortStringSchema path (JString s) =
  if Z.of_nat (length s) <? 1
  then (DIRTY (JString s), [too_small t_string 1 path])
  else if Z.of_nat (length s) >? 200
  then (DIRTY (JString s), [too_big t_string 200 path])
  else (OK (JString s), []).
Proof.
  unfold ShortStringSchema, ZodString. cbn [fold_left string_check fst snd].
  destruct (Z.of_nat (length s) <? 1) eqn:E1;
    destruct (Z.of_nat (length s) >? 200) eqn:E2; try reflexivity.
  apply Z.ltb_lt in E1. apply Z.gtb_lt in E2. lia.
Qed.

Lemma nativeEnum_result values path data :
  (includes (getValidEnumValues values) data = true /\
   nativeEnum values path data = (OK data, [])) \/
  (exists i, nativeEnum values path data = (INVALID, [i]) /\
             issue_path i = path).
Proof.
  unfold nativeEnum.
  destruct (getParsedType data); try (right; eexists; split; reflexivity);
    destruct (includes (getValidEnumValues values) data);
    try (right; eexists; split; reflexivity); left; split; reflexivity.
Qed.

Lemma includes_string values data :
  includes values data = true -> exists s, data = JString s.
Proof. destruct data; try discriminate. eauto. Qed.

Lemma in_range_number lo hi x :
  in_range lo hi x = true -> isNaN (JNumber x) = false.
Proof.
  intros H. destruct (isNaN (JNumber x)) eqn:E; [|reflexivity].
  rewrite (isNaN_in_range _ _ _ E) in H. discriminate.
Qed.

(** *** Stable *)

Lemma stable_number_field lo hi d :
  isNaN (JNumber (F d)) = false -> stable (number_field lo hi d d).
Proof.
  intros Hd path data w issues H.
  rewrite (number_field_spec _ _ _ _ _ _ Hd) in H.
  apply number_field_OK in H as (x & -> & Hx).
  split; [discriminate|]. intros path'.
  rewrite (number_field_spec _ _ _ _ _ _ Hd).
  unfold number_field_result, checked.
  rewrite (in_range_number _ _ _ Hx), Hx. reflexivity.
Qed.

Lemma stable_enum_field values name :
  includes (getValidEnumValues values) (member values name) = true ->
  stable (enum_field values name).
Proof.
  intros Hmember path data w issues H.
  assert (exists data', nativeEnum values path data' = (OK w, issues) /\
                        data' <> JUndefined) as (data' & H' & Hdef).
  { unfold enum_field, default in H. destruct data; eauto; try (eexists; split; [exact H|discriminate]).
    exists (member values name). split; [exact H|].
    destruct (includes_string _ _ Hmember) as [s ->]. discriminate. }
  destruct (nativeEnum_result values path data') as [[Hin E]|(i & E & _)];
    rewrite E in H'; [|discriminate].
  injection H' as <- _. split; [exact Hdef|]. intros path'.
  destruct (includes_string _ _ Hin) as [s ->].
  rewrite enum_field_string, Hin. reflexivity.
Qed.

Lemma stable_public_key_field : stable (public_key_field env).
Proof.
  intros path data w issues H.
  assert (w = JString (LIQPAY_PUBLIC_KEY env)) as ->.
  { destruct data; try discriminate.
    - rewrite public_key_field_default in H. congruence.
    - rewrite public_key_field_string in H.
      destruct (bool_decide (s = LIQPAY_PUBLIC_KEY env)) eqn:E; [|discriminate].
      apply bool_decide_eq_true in E. congruence. }
  split; [discriminate|]. intros path'.
  rewrite public_key_field_string, bool_decide_eq_true_2 by reflexivity.
  reflexivity.
Qed.

Lemma stable_string_field d : stable (string_field d).
Proof.
  intros path data w issues H.
  assert (exists s, w = JString s) as [s ->].
  { destruct data; try discriminate; injection H as <- _; eauto. }
  split; [discriminate|]. intros path'. apply string_field_string.
Qed.

Lemma description_OK path data w issues :
  default (JString default_description) ShortStringSchema path data
    = (OK w, issues) ->
  exists s, w = JString s /\ 1 <= Z.of_nat (length s) <= 200.
Proof.
  intros H.
  assert (exists s, ShortStringSchema path (JString s) = (OK w, issues))
    as [s Hs].
  { destruct data; try discriminate; eauto. }
  rewrite ShortStringSchema_string in Hs.
  destruct (Z.of_nat (length s) <? 1) eqn:E1; [discriminate|].
  destruct (Z.of_nat (length s) >? 200) eqn:E2; [discriminate|].
  injection Hs as <- _. exists s. split; [reflexivity|].
  apply Z.ltb_ge in E1. rewrite Z.gtb_ltb in E2. apply Z.ltb_ge in E2. lia.
Qed.

Lemma stable_description :
  stable (default (JString default_description) ShortStringSchema).
Proof.
  intros path data w issues H.
  apply description_OK in H as (s & -> & Hlen).
  split; [discriminate|]. intros path'.
  change (default (JString default_description) ShortStringSchema path'
            (JString s))
    with (ShortStringSchema path' (JString s)).
  rewrite ShortStringSchema_string.
  assert ((Z.of_nat (length s) <? 1) = false) as -> by (apply Z.ltb_ge; lia).
  assert ((Z.of_nat (length s) >? 200) = false) as ->
    by (rewrite Z.gtb_ltb; apply Z.ltb_ge; lia).
  reflexivity.
Qed.

Lemma CNBSchema_stable : Forall (fun kv => stable (snd kv)) (CNBSchema_shape env).
Proof.
  rewrite CNBSchema_shape_eq.
  repeat (apply List.Forall_cons;
          [cbn [snd];
           first [ apply stable_number_field; vm_compute; reflexivity
                 | apply stable_enum_field; reflexivity
                 | apply stable_public_key_field
                 | apply stable_description
                 | apply stable_string_field ] |]).
  apply List.Forall_nil.
Qed.

Lemma CNBSchema_field_names : map fst (CNBSchema_shape env) = field_names.
Proof. rewrite CNBSchema_shape_eq. reflexivity. Qed.

End FieldKinds.

Section FieldIssues.
Variable env : ProcessEnv.

Ltac split_ifs :=
  repeat match goal with
         | |- context [if ?b then _ else _] => destruct b
         end.

Ltac behaved :=
  cbn [fst snd]; split;
  [ repeat constructor
  | first [ left; eexists; reflexivity | right; discriminate ] ].

(** The issues of a field are at its path, and there is one whenever
    the result is not valid. *)
Lemma number_field_issues lo hi d path data :
  isNaN (JNumber (F d)) = false ->
  Forall (fun i => issue_path i = path)
    (snd (number_field lo hi d d path data)) /\
  ((exists w, fst (number_field lo hi d d path data) = OK w) \/
   snd (number_field lo hi d d path data) <> []).
Proof.
  intros Hd. rewrite (number_field_spec _ _ _ _ _ _ Hd).
  unfold number_field_result, checked, union_mismatch.
  destruct data; cbv zeta; split_ifs; behaved.
Qed.

Lemma enum_field_issues values name path data :
  Forall (fun i => issue_path i = path)
    (snd (enum_field values name path data)) /\
  ((exists w, fst (enum_field values name path data) = OK w) \/
   snd (enum_field values name path data) <> []).
Proof.
  assert (exists data', enum_field values name path data
                        = nativeEnum values path data') as [data' ->].
  { unfold enum_field, default. destruct data; eauto. }
  destruct (nativeEnum_result values path data') as [[_ E]|(i & E & Hi)];
    rewrite E; cbn [fst snd].
  - split; [constructor | left; eauto].
  - split; [repeat constructor; exact Hi | right; discriminate].
Qed.

Lemma public_key_field_issues path data :
  Forall (fun i => issue_path i = path)
    (snd (public_key_field env path data)) /\
  ((exists w, fst (public_key_field env path data) = OK w) \/
   snd (public_key_field env path data) <> []).
Proof.
  unfold public_key_field, default, refine, ZodString, strict_equals_string.
  destruct data; cbn [fold_left]; split_ifs; behaved.
Qed.

Lemma description_issues path data :
  Forall (fun i => issue_path i = path)
    (snd (default (JString default_description) ShortStringSchema path data)) /\
  ((exists w,
      fst (default (JString default_description) ShortStringSchema path data)
      = OK w) \/
   snd (default (JString default_description) ShortStringSchema path data)
   <> []).
Proof.
  unfold default.
  destruct data; rewrite ?ShortStringSchema_string; split_ifs;
    try (unfold ShortStringSchema, ZodString); behaved.
Qed.

Lemma string_field_issues d path data :
  Forall (fun i => issue_path i = path) (snd (string_field d path data)) /\
  ((exists w, fst (string_field d path data) = OK w) \/
   snd (string_field d path data) <> []).
Proof.
  unfold string_field, default, ZodString.
  destruct data; cbn [fold_left]; behaved.
Qed.

Lemma CNBSchema_issues :
  Forall (fun kv => at_own_path (snd kv) /\ reports (snd kv))
    (CNBSchema_shape env).
Proof.
  assert (forall schema : ZodType,
            (forall path data,
               Forall (fun i => issue_path i = path) (snd (schema path data)) /\
               ((exists w, fst (schema path data) = OK w) \/
                snd (schema path data) <> [])) ->
            at_own_path schema /\ reports schema) as Hsplit.
  { intros schema H. split; intros path data.
    - apply H.
    - intros Hbad. destruct (H path data) as [_ [[w Hw]|Hne]]; [|exact Hne].
      exfalso. exact (Hbad w Hw). }
  rewrite CNBSchema_shape_eq.
  repeat (apply List.Forall_cons;
          [cbn [snd]; apply Hsplit; intros path data;
           first [ apply number_field_issues; vm_compute; reflexivity
                 | apply enum_field_issues
                 | apply public_key_field_issues
                 | apply description_issues
                 | apply string_field_issues ] |]).
  apply List.Forall_nil.
Qed.

End FieldIssues.

(* ===================================================================== *)
(** ** More of CNBSchema: inputs, results and reports *)
(* ===================================================================== *)

Section Requests.
Variable env : ProcessEnv.

Lemma description_in_shape :
  In ("description", default (JString default_description) ShortStringSchema)
    (CNBSchema_shape env).
Proof. rewrite CNBSchema_shape_eq. do 6 right. left. reflexivity. Qed.

Lemma field_in_shape key :
  In key field_names ->
  exists schema, In (key, schema) (CNBSchema_shape env).
Proof.
  rewrite <- (CNBSchema_field_names env). intros H.
  apply in_map_iff in H as ([k schema] & <- & Hin). eauto.
Qed.

Lemma shape_field_name kv :
  In kv (CNBSchema_shape env) -> In (fst kv) field_names.
Proof.
  intros H. rewrite <- (CNBSchema_field_names env). apply in_map, H.
Qed.

Lemma shape_stable key schema :
  In (key, schema) (CNBSchema_shape env) -> stable schema.
Proof.
  intros Hin. pose proof (CNBSchema_stable env) as H.
  rewrite Forall_forall in H.
  exact (H _ (proj2 (list_elem_of_In _ _) Hin)).
Qed.

Lemma forallb_false {A} (f : A -> bool) l :
  forallb f l = false -> exists x, In x l /\ f x = false.
Proof.
  induction l as [|x l IH]; [discriminate|]. cbn [forallb].
  destruct (f x) eqn:E.
  - intros H. destruct (IH H) as (y & Hy & Hfy). exists y. split; [right|]; assumption.
  - intros _. exists x. split; [left; reflexivity | exact E].
Qed.

(** X1. The description is a string of 1 to 200 UTF-16 code units: with
    the rest of the input valid, such a string is accepted unchanged,
    the empty string is rejected as too small and a longer one as too
    big, each with the one issue at the description field. *)
Theorem description_length_checked o r0 s :
  safeParse (CNBSchema env) (JObject (delete "description" o))
    = success (JObject r0) ->
  (s = [] ->
   safeParse (CNBSchema env) (JObject (<["description" := JString s]> o))
     = error [too_small t_string 1 ["description"]]) /\
  ((1 <= length s <= 200)%nat ->
   safeParse (CNBSchema env) (JObject (<["description" := JString s]> o))
     = success (JObject (<["description" := JString s]> r0))) /\
  ((200 < length s)%nat ->
   safeParse (CNBSchema env) (JObject (<["description" := JString s]> o))
     = error [too_big t_string 200 ["description"]]).
Proof.
  intros Hrest. unfold CNBSchema in *.
  rewrite (replace_property _ _ _ _ (JString s) r0 (CNBSchema_keys env)
             (CNBSchema_quiet env) description_in_shape Hrest).
  change (default (JString default_description) ShortStringSchema
            ["description"] (JString s))
    with (ShortStringSchema ["description"] (JString s)).
  rewrite ShortStringSchema_string.
  destruct (Z.of_nat (length s) <? 1) eqn:E1;
    [apply Z.ltb_lt in E1 | apply Z.ltb_ge in E1];
    (destruct (Z.of_nat (length s) >? 200) eqn:E2;
     [apply Z.gtb_lt in E2 | rewrite Z.gtb_ltb in E2; apply Z.ltb_ge in E2]);
    repeat split; try reflexivity; try lia; intros ->; cbn [length] in *; lia.
Qed.

(** X2. A key that no field of the schema has is ignored: adding it to
    the input, with any value, changes neither the result nor the
    issues. *)
Theorem unknown_key_ignored o key v :
  ~ In key field_names ->
  safeParse (CNBSchema env) (JObject (<[key := v]> o))
    = safeParse (CNBSchema env) (JObject o).
Proof.
  intros Hkey. unfold CNBSchema.
  apply ZodObject_safeParse_ext; [apply CNBSchema_stable|].
  intros kv Hkv. unfold get. rewrite lookup_insert_ne; [reflexivity|].
  intros ->. apply Hkey, shape_field_name, Hkv.
Qed.

(** X3. A key whose value is [undefined] is validated like an absent
    key, for every key. *)
Theorem undefined_is_absent o key :
  safeParse (CNBSchema env) (JObject (<[key := JUndefined]> o))
    = safeParse (CNBSchema env) (JObject (delete key o)).
Proof.
  unfold CNBSchema.
  apply ZodObject_safeParse_ext; [apply CNBSchema_stable|].
  intros kv _. unfold get.
  destruct (string_dec key (fst kv)) as [<-|Hne].
  - rewrite lookup_insert_eq, lookup_delete_eq. reflexivity.
  - rewrite lookup_insert_ne, lookup_delete_ne by exact Hne. reflexivity.
Qed.

(** X4. No default stands in for [null]: each of the ten fields rejects
    it, with an issue at the field. *)
Theorem null_is_rejected o key :
  In key field_names ->
  exists issues,
    safeParse (CNBSchema env) (JObject (<[key := JNull]> o)) = error issues /\
    exists i, In i issues /\ issue_path i = [key].
Proof.
  intros Hkey.
  assert (exists schema i,
            In (key, schema) (CNBSchema_shape env) /\
            schema [key] JNull = (INVALID, [i]) /\ issue_path i = [key])
    as (schema & i & Hin & Hnull & Hpath).
  { rewrite CNBSchema_shape_eq. unfold field_names, user_field_names in Hkey.
    cbn [app] in Hkey.
    repeat (destruct Hkey as [<-|Hkey];
            [eexists; eexists; split;
             [cbn [In]; eauto 12 | split; reflexivity]|]).
    destruct Hkey. }
  destruct (invalid_property_fails (CNBSchema_shape env)
              (<[key := JNull]> o) key schema Hin) as (issues & Herr & Hincl).
  - rewrite get_insert, Hnull. discriminate.
  - exists issues. split; [exact Herr|]. exists i. split; [|exact Hpath].
    apply Hincl. rewrite get_insert, Hnull. left. reflexivity.
Qed.

(** X5. A valid request has the ten fields of the schema and no other
    key, whatever keys the input had. *)
Theorem valid_request_keys input r key :
  safeParse (CNBSchema env) input = success (JObject r) ->
  is_Some (r !! key) <-> In key field_names.
Proof.
  intros H. destruct (CNBSchema_success _ _ _ H) as (o & ro & -> & _).
  unfold CNBSchema in H. split.
  - intros Hsome. destruct (in_dec string_dec key field_names) as [Hin|Hout];
      [exact Hin|].
    rewrite <- (CNBSchema_field_names env) in Hout.
    rewrite (success_other_keys _ _ _ _ H Hout) in Hsome.
    destruct Hsome as [? ?]. discriminate.
  - intros Hin. destruct (field_in_shape _ Hin) as [schema Hschema].
    destruct (success_stable_property _ _ _ _ _ (CNBSchema_keys env)
                (CNBSchema_stable env) Hschema H) as (w & _ & _ & Hr & _).
    eauto.
Qed.

(** X6. In a valid request the version is an integer of [1, 3], each
    enum field is a string of its closed set, the public key is the
    configured one, the description is a string of 1 to 200 code units,
    and the start date and the result URL are strings. *)
Theorem valid_request_fields input r :
  safeParse (CNBSchema env) input = success (JObject r) ->
  (exists x n, r !! "version" = Some (JNumber x) /\
               integer_value x = Some n /\ 1 <= n <= 3) /\
  (forall field allowed, In (field, allowed) enum_fields ->
     exists s, r !! field = Some (JString s) /\ In s allowed) /\
  r !! "public_key" = Some (JString (LIQPAY_PUBLIC_KEY env)) /\
  (exists s, r !! "description" = Some (JString s) /\
             (1 <= length s <= 200)%nat) /\
  (exists s, r !! "subscribe_date_start" = Some (JString s)) /\
  (exists s, r !! "result_url" = Some (JString s)).
Proof.
  intros H. destruct (CNBSchema_success _ _ _ H) as (o & ro & -> & _).
  unfold CNBSchema in H.
  pose proof (fun key schema Hin =>
                success_stable_property _ _ _ key schema (CNBSchema_keys env)
                  (CNBSchema_stable env) Hin H) as Hfield.
  repeat split.
  - destruct (Hfield _ _ (version_in_shape env)) as (w & issues & Hw & Hr & _).
    rewrite (number_field_spec _ _ _ _ _ _ F3_number) in Hw.
    apply number_field_OK in Hw as (x & -> & Hx).
    apply (in_range_spec _ _ _ exact_1 exact_3) in Hx as (n & Hn & Hle).
    eauto.
  - intros field allowed Hin.
    destruct (enum_field_in_shape env _ _ Hin) as (values & name & Hshape & <-).
    destruct (Hfield _ _ Hshape) as (w & issues & Hw & Hr & _ & Hfix).
    pose proof (stable_defined _ _ _ _ _ (shape_stable _ _ Hshape) Hw) as Hdef.
    specialize (Hfix []).
    assert (nativeEnum values [] w = (OK w, [])) as Hnative.
    { rewrite <- Hfix. unfold enum_field, default.
      destruct w; try reflexivity. congruence. }
    destruct (nativeEnum_result values [] w) as [[Hinc E]|(i & E & _)];
      [|congruence].
    destruct (includes_string _ _ Hinc) as [s ->].
    exists s. split; [exact Hr|]. apply includes_In, Hinc.
  - destruct (Hfield _ _ (public_key_in_shape env)) as (w & issues & Hw & Hr & _).
    rewrite Hr. f_equal.
    destruct (get o "public_key"); try discriminate.
    + rewrite public_key_field_default in Hw. congruence.
    + rewrite public_key_field_string in Hw.
      destruct (bool_decide (s = LIQPAY_PUBLIC_KEY env)) eqn:E; [|discriminate].
      apply bool_decide_eq_true in E. congruence.
  - destruct (Hfield _ _ description_in_shape) as (w & issues & Hw & Hr & _).
    apply description_OK in Hw as (s & -> & Hlen).
    exists s. split; [exact Hr | lia].
  - destruct (Hfield _ _ (subscribe_date_start_in_shape env))
      as (w & issues & Hw & Hr & _).
    destruct (get o "subscribe_date_start"); try discriminate;
      injection Hw as <- _; eauto.
  - destruct (Hfield _ _ (result_url_in_shape env))
      as (w & issues & Hw & Hr & _).
    destruct (get o "result_url"); try discriminate;
      injection Hw as <- _; eauto.
Qed.

(** X7. Validation is idempotent: a valid request, given as an input,
    is valid and is returned as it is. *)
Theorem validation_idempotent input r :
  safeParse (CNBSchema env) input = success (JObject r) ->
  safeParse (CNBSchema env) (JObject r) = success (JObject r).
Proof.
  intros H. destruct (CNBSchema_success _ _ _ H) as (o & ro & -> & _).
  exact (ZodObject_idempotent _ _ _ (CNBSchema_keys env)
           (CNBSchema_stable env) H).
Qed.

(** X8. A failed validation always reports an issue. For an input that
    is not an object it is the one type issue at the root; for an
    object, every issue is at one of the ten fields. *)
Theorem failure_reports_fields input issues :
  safeParse (CNBSchema env) input = error issues ->
  issues <> [] /\
  match input with
  | JObject _ =>
      Forall (fun i => exists key,
                In key field_names /\ issue_path i = [key]) issues
  | _ => issues = [invalid_type (lit "object") (getParsedType input) []]
  end.
Proof.
  pose proof (CNBSchema_issues env) as Hissues.
  rewrite Forall_forall in Hissues.
  destruct input as [| |b|x|s|l|o];
    try (unfold safeParse, CNBSchema, ZodObject; intros [= <-];
         split; [discriminate | reflexivity]).
  unfold CNBSchema. rewrite ZodObject_safeParse.
  destruct (forallb _ _) eqn:E; [discriminate|].
  remember (flat_map (property_issues [] o) (CNBSchema_shape env)) as all
    eqn:Hall.
  intros [= <-]. split.
  - apply forallb_false in E as (p & Hp & Hbad).
    apply in_map_iff in Hp as (kv & <- & Hkv).
    destruct (Hissues kv (proj2 (list_elem_of_In _ _) Hkv)) as [_ Hrep].
    assert (property_issues [] o kv <> []) as Hne.
    { apply Hrep. intros w Hw. unfold pair_OK, pair_of, property in Hbad.
      cbn [pair_value] in Hbad. rewrite Hw in Hbad. discriminate. }
    intros Hnil. apply Hne.
    destruct (property_issues [] o kv) as [|i rest] eqn:Ei; [reflexivity|].
    assert (In i all) as Hi.
    { rewrite Hall. apply in_flat_map. exists kv. split; [exact Hkv|].
      rewrite Ei. left. reflexivity. }
    rewrite Hnil in Hi. destruct Hi.
  - apply Forall_forall. intros i Hi. rewrite Hall in Hi.
    apply list_elem_of_In, in_flat_map in Hi as (kv & Hkv & Hi).
    destruct (Hissues kv (proj2 (list_elem_of_In _ _) Hkv)) as [Hpath _].
    exists (fst kv). split; [apply shape_field_name, Hkv|].
    specialize (Hpath ([] ++ [fst kv]) (get o (fst kv))).
    rewrite Forall_forall in Hpath.
    apply (Hpath i), list_elem_of_In, Hi.
Qed.

(** X9. Validation does not stop at the first invalid field: the
    issues of every field are in the report, those of an earlier field
    of the schema before those of a later one. *)
Theorem every_invalid_field_reported o issues :
  safeParse (CNBSchema env) (JObject o) = error issues ->
  issues = flat_map (fun kv => snd (snd kv [fst kv] (get o (fst kv))))
             (CNBSchema_shape env) /\
  forall key schema,
    In (key, schema) (CNBSchema_shape env) ->
    incl (snd (schema [key] (get o key))) issues.
Proof.
  unfold CNBSchema. rewrite ZodObject_safeParse.
  destruct (forallb _ _); [discriminate|]. intros Heq.
  assert (issues = flat_map (property_issues [] o) (CNBSchema_shape env))
    as -> by (injection Heq as Heq; symmetry; exact Heq).
  split; [reflexivity|].
  intros key schema Hin i Hi. apply in_flat_map.
  exists (key, schema). split; [exact Hin | exact Hi].
Qed.

End Requests.

(* ===================================================================== *)
(** ** The other schemas of the module *)
(* ===================================================================== *)

Section OtherSchemas.
Variable env : ProcessEnv.

Lemma CNBSchema_shape_extends :
  CNBSchema_shape env = UserCNBSchema_shape ++ skipn 4 (CNBSchema_shape env).
Proof. rewrite CNBSchema_shape_eq. reflexivity. Qed.

Lemma extension_keys key :
  In key user_field_names ->
  Forall (fun p => pair_key p <> key)
    (map (pair_of [] ∅) (skipn 4 (CNBSchema_shape env))).
Proof.
  rewrite CNBSchema_shape_eq. cbn [skipn map pair_of pair_key fst].
  unfold user_field_names.
  intros [<-|[<-|[<-|[<-|[]]]]]; repeat constructor; discriminate.
Qed.

Lemma pair_keys (o o' : gmap string JSValue) (shape : ZodRawShape) key :
  Forall (fun p => pair_key p <> key) (map (pair_of [] o) shape) ->
  Forall (fun p => pair_key p <> key) (map (pair_of [] o') shape).
Proof.
  induction shape as [|kv rest IH]; cbn [map]; intros H; [constructor|].
  inversion H; subst. constructor; [assumption | apply IH; assumption].
Qed.

Lemma object_result_inj (a b : gmap string JSValue) :
  success (JObject a) = success (JObject b) -> a = b.
Proof. intros [= ->]. reflexivity. Qed.

(** X10. [CNBSchema] extends [UserCNBSchema] without changing it: on an
    input that [CNBSchema] accepts, [UserCNBSchema] returns the four
    user fields of the same request and nothing else; and the issues
    [UserCNBSchema] reports are the first that [CNBSchema] reports. *)
Theorem UserCNBSchema_agrees o :
  (forall r,
     safeParse (CNBSchema env) (JObject o) = success (JObject r) ->
     exists ru,
       safeParse UserCNBSchema (JObject o) = success (JObject ru) /\
       (forall key, In key user_field_names -> ru !! key = r !! key) /\
       (forall key, ~ In key user_field_names -> ru !! key = None)) /\
  (forall issues,
     safeParse UserCNBSchema (JObject o) = error issues ->
     exists more,
       safeParse (CNBSchema env) (JObject o) = error (issues ++ more)).
Proof.
  unfold CNBSchema, UserCNBSchema. rewrite !ZodObject_safeParse.
  rewrite CNBSchema_shape_extends.
  set (extension := skipn 4 (CNBSchema_shape env)).
  rewrite map_app, forallb_app, flat_map_app, fold_left_app.
  destruct (forallb pair_OK (map (pair_of [] o) UserCNBSchema_shape)) eqn:E.
  - split; [|discriminate]. cbn [andb].
    destruct (forallb pair_OK (map (pair_of [] o) extension)); [|discriminate].
    intros r Hr. apply object_result_inj in Hr. subst r.
    eexists. split; [reflexivity|]. split.
    + intros key Hkey. symmetry. apply lookup_fold_pair_set.
      apply (pair_keys ∅), extension_keys, Hkey.
    + intros key Hkey. rewrite lookup_fold_pair_set; [apply lookup_empty|].
      apply Forall_forall. intros p Hp Heq.
      apply list_elem_of_In, in_map_iff in Hp as (kv & <- & Hkv).
      apply Hkey. rewrite <- Heq. cbn [pair_of pair_key].
      exact (in_map fst _ _ Hkv).
  - split; [discriminate|]. cbn [andb]. intros issues Hi.
    assert (flat_map (property_issues [] o) UserCNBSchema_shape = issues)
      as <- by (injection Hi as Hi; exact Hi).
    eauto.
Qed.

Lemma number_checks lo hi d x :
  isNaN (JNumber x) = false ->
  safeParse (default (JNumber (F d)) (ZodNumber [n_int; n_min lo; n_max hi]))
    (JNumber x)
  = if in_range lo hi x then success (JNumber x)
    else error (check_issues lo hi x []).
Proof.
  intros Hx. unfold safeParse, default, ZodNumber. rewrite Hx.
  cbn [fold_left number_check fst snd]. unfold in_range, check_issues.
  destruct (isInteger x), (lessThan x (F lo)), (greaterThan x (F hi));
    reflexivity.
Qed.

Lemma check_issues_some lo hi x path :
  in_range lo hi x = false -> check_issues lo hi x path <> [].
Proof.
  unfold in_range, check_issues.
  destruct (isInteger x), (lessThan x (F lo)), (greaterThan x (F hi));
    discriminate.
Qed.

(** X11. [LiqpayAmountSchema] and [LiqpayAPIVersionSchema] on their own:
    [undefined] yields the default; a string is rejected as not a number,
    even a numeric one; a number is accepted exactly when it is an
    integer within the bounds, and otherwise every failing check has its
    issue in the report. *)
Theorem number_schemas_alone schema lo hi d :
  In (schema, (lo, hi, d)) checked_number_schemas ->
  safeParse schema JUndefined = success (JNumber (F d)) /\
  (forall s, safeParse schema (JString s)
             = error [invalid_type (lit "number") t_string []]) /\
  (forall x,
     (exists n, integer_value x = Some n /\ lo <= n <= hi) ->
     safeParse schema (JNumber x) = success (JNumber x)) /\
  (forall x,
     isNaN (JNumber x) = false ->
     (forall n, integer_value x = Some n -> ~ lo <= n <= hi) ->
     safeParse schema (JNumber x) = error (check_issues lo hi x []) /\
     check_issues lo hi x [] <> []).
Proof.
  intros Hin.
  assert (exact lo /\ exact hi /\
          schema = default (JNumber (F d)) (ZodNumber [n_int; n_min lo; n_max hi]) /\
          safeParse schema JUndefined = success (JNumber (F d)))
    as (Hlo & Hhi & -> & Hdefault).
  { destruct Hin as [[= <- <- <- <-]|[[= <- <- <- <-]|[]]].
    - split; [exact exact_1|]. split; [exact exact_10000|].
      split; [reflexivity|]. vm_compute. reflexivity.
    - split; [exact exact_1|]. split; [exact exact_3|].
      split; [reflexivity|]. vm_compute. reflexivity. }
  split; [exact Hdefault|]. split; [reflexivity|]. split.
  - intros x Hx. apply (in_range_spec _ _ _ Hlo Hhi) in Hx.
    rewrite (number_checks _ _ _ _ (in_range_number _ _ _ Hx)), Hx.
    reflexivity.
  - intros x Hx Hbad.
    assert (in_range lo hi x = false) as Hrange.
    { apply not_true_is_false. intros H.
      apply (in_range_spec _ _ _ Hlo Hhi) in H as (n & Hn & Hle).
      exact (Hbad n Hn Hle). }
    rewrite (number_checks _ _ _ _ Hx), Hrange.
    split; [reflexivity | apply check_issues_some, Hrange].
Qed.

(** X12. [MaybeStringifiedNumberSchema] on its own accepts a number, or
    a string that converts to one, whatever its sign, size or fraction,
    and returns the number; its result is never NaN and never a string;
    a string that converts to no number is rejected with one [custom]
    issue. *)
Theorem stringified_number_alone v :
  (forall w,
     safeParse MaybeStringifiedNumberSchema v = success w ->
     exists x, numeric_value v = Some x /\ isNaN (JNumber x) = false /\
               w = JNumber x) /\
  (forall x,
     numeric_value v = Some x -> isNaN (JNumber x) = false ->
     safeParse MaybeStringifiedNumberSchema v = success (JNumber x)) /\
  (forall s,
     v = JString s -> StringToNumber s = NaN ->
     safeParse MaybeStringifiedNumberSchema v = error [custom []]).
Proof.
  unfold safeParse. rewrite MaybeStringifiedNumberSchema_spec.
  destruct v as [| |b|y|s|l|o]; unfold union_mismatch;
    (split; [|split]); try discriminate.
  - destruct (isNaN (JNumber y)) eqn:E; [discriminate|].
    intros w [= <-]. eauto.
  - intros x [= <-] Hx. rewrite Hx. reflexivity.
  - cbv zeta. destruct (isNaN (JNumber (StringToNumber s))) eqn:E;
      [discriminate|].
    intros w [= <-]. eauto.
  - intros x [= <-] Hx. cbv zeta. rewrite Hx. reflexivity.
  - intros s' [= <-] Hs. cbv zeta. rewrite Hs. reflexivity.
Qed.

End OtherSchemas.

(* ===================================================================== *)
(** ** White space around a numeric string *)
(* ===================================================================== *)

Section WhiteSpace.
Variable env : ProcessEnv.

Lemma blank_rev s : blank s -> blank (rev s).
Proof.
  unfold blank. rewrite !Forall_forall. intros H c Hc.
  apply H, list_elem_of_In, in_rev, list_elem_of_In, Hc.
Qed.

Lemma trimStart_blank_app a t : blank a -> trimStart (a ++ t) = trimStart t.
Proof.
  induction 1 as [|c a Hc _ IH]; [reflexivity|].
  cbn [app trimStart]. rewrite Hc. exact IH.
Qed.

Lemma trimStart_app s b :
  trimStart s <> [] -> trimStart (s ++ b) = trimStart s ++ b.
Proof.
  induction s as [|c s IH]; [intros H; exfalso; apply H; reflexivity|].
  cbn [app trimStart]. destruct (is_StrWhiteSpaceChar c); [exact IH|].
  reflexivity.
Qed.

Lemma trim_blank_around a s b :
  blank a -> blank b -> trim (a ++ s ++ b) = trim s.
Proof.
  intros Ha Hb. unfold trim. rewrite (trimStart_blank_app _ _ Ha).
  destruct (trimStart s) as [|c t] eqn:E.
  - assert (blank s) as Hs.
    { clear -E. induction s as [|c s IH]; [constructor|].
      cbn [trimStart] in E.
      destruct (is_StrWhiteSpaceChar c) eqn:Ec; [|discriminate].
      constructor; [exact Ec | exact (IH E)]. }
    rewrite (trimStart_blank_app _ _ Hs), (trimStart_blank _ Hb). reflexivity.
  - rewrite trimStart_app by (rewrite E; discriminate).
    rewrite E, rev_app_distr, (trimStart_blank_app _ _ (blank_rev _ Hb)).
    reflexivity.
Qed.

Lemma StringToNumber_blank_around a s b :
  blank a -> blank b -> StringToNumber (a ++ s ++ b) = StringToNumber s.
Proof.
  intros Ha Hb. unfold StringToNumber.
  rewrite (trim_blank_around _ _ _ Ha Hb). reflexivity.
Qed.

Lemma keys_unique (shape : ZodRawShape) key schema schema' :
  NoDup (map fst shape) ->
  In (key, schema) shape -> In (key, schema') shape -> schema = schema'.
Proof.
  induction shape as [|kv rest IH]; [intros _ []|].
  cbn [map]. intros Hnd. apply NoDup_cons in Hnd as [Hout Hnd].
  intros [->|H1] [E|H2].
  - congruence.
  - exfalso. apply Hout, list_elem_of_In. exact (in_map fst _ _ H2).
  - exfalso. apply Hout, list_elem_of_In. rewrite E.
    exact (in_map fst _ _ H1).
  - exact (IH Hnd H1 H2).
Qed.

(** Two values of a key that its parser does not tell apart are not
    told apart by the object. *)
Lemma same_property (shape : ZodRawShape) (o : gmap string JSValue)
    key v1 v2 :
  (forall schema, In (key, schema) shape -> schema [key] v1 = schema [key] v2) ->
  safeParse (ZodObject shape) (JObject (<[key := v1]> o))
    = safeParse (ZodObject shape) (JObject (<[key := v2]> o)).
Proof.
  intros Hsame. rewrite !ZodObject_safeParse.
  assert (map (pair_of [] (<[key := v1]> o)) shape
            = map (pair_of [] (<[key := v2]> o)) shape /\
          flat_map (property_issues [] (<[key := v1]> o)) shape
            = flat_map (property_issues [] (<[key := v2]> o)) shape)
    as [-> ->]; [|reflexivity].
  induction shape as [|[k schema] rest IH]; [split; reflexivity|].
  destruct IH as [IH1 IH2].
  { intros schema' Hin. apply Hsame. right. exact Hin. }
  cbn [map flat_map]. rewrite IH1, IH2.
  assert (property [] (<[key := v1]> o) (k, schema)
            = property [] (<[key := v2]> o) (k, schema) /\
          bool_decide (is_Some (<[key := v1]> o !! k))
            = bool_decide (is_Some (<[key := v2]> o !! k)))
    as [Hprop Hset].
  { unfold property, get. cbn [fst snd app].
    destruct (string_dec key k) as [<-|Hne].
    - rewrite !lookup_insert_eq. split.
      + apply Hsame. left. reflexivity.
      + rewrite !bool_decide_eq_true_2 by eauto. reflexivity.
    - rewrite !lookup_insert_ne by exact Hne. split; reflexivity. }
  unfold pair_of, property_issues. cbn [fst] in *.
  rewrite Hprop, Hset. split; reflexivity.
Qed.

(** X13. White space around the string of an amount or of a version is
    ignored: the padded string is validated like the bare one, with the
    same result or the same issues. *)
Theorem padded_numeric_string field lo hi o a s b :
  In (field, (lo, hi)) numeric_fields ->
  blank a -> blank b ->
  safeParse (CNBSchema env) (JObject (<[field := JString (a ++ s ++ b)]> o))
    = safeParse (CNBSchema env) (JObject (<[field := JString s]> o)).
Proof.
  intros Hfield Ha Hb.
  destruct (numeric_field_in_shape env _ _ _ Hfield)
    as (_ & _ & d & Hin & Hd).
  unfold CNBSchema. apply same_property. intros schema Hschema.
  rewrite (keys_unique _ _ _ _ (CNBSchema_keys env) Hschema Hin).
  rewrite !(number_field_spec _ _ _ _ _ _ Hd).
  unfold number_field_result.
  rewrite (StringToNumber_blank_around _ _ _ Ha Hb). reflexivity.
Qed.

End WhiteSpace.

(* ===================================================================== *)
(** ** A process without its environment *)
(* ===================================================================== *)

(** X14. Without [URL] the default result URL starts with the text
    [undefined]; without [LIQPAY_PUBLIC_KEY] the public key of a valid
    request is the empty string, and every other public key is rejected. *)
Theorem unset_environment key url input o s r r' :
  (safeParse (CNBSchema {| env_LIQPAY_PUBLIC_KEY := key; env_URL := None |})
     (JObject ∅) = success (JObject r) ->
   r !! "result_url" = Some (JString (lit "undefined/donate/thankyou"))) /\
  (safeParse (CNBSchema {| env_LIQPAY_PUBLIC_KEY := None; env_URL := url |})
     input = success (JObject r') ->
   r' !! "public_key" = Some (JString [])) /\
  (s <> [] ->
   exists issues,
     safeParse (CNBSchema {| env_LIQPAY_PUBLIC_KEY := None; env_URL := url |})
       (JObject (<["public_key" := JString s]> o)) = error issues /\
     In (custom ["public_key"]) issues).
Proof.
  split; [|split].
  - set (env := {| env_LIQPAY_PUBLIC_KEY := key; env_URL := None |}).
    intros H. unfold CNBSchema in H.
    destruct (success_stable_property _ _ _ _ _ (CNBSchema_keys env)
                (CNBSchema_stable env) (result_url_in_shape env) H)
      as (w & issues & Hw & Hr & _).
    rewrite Hr. injection Hw as <- _. reflexivity.
  - set (env := {| env_LIQPAY_PUBLIC_KEY := None; env_URL := url |}).
    intros H. destruct (CNBSchema_success _ _ _ H) as (oi & ro & -> & _).
    unfold CNBSchema in H.
    destruct (success_stable_property _ _ _ _ _ (CNBSchema_keys env)
                (CNBSchema_stable env) (public_key_in_shape env) H)
      as (w & issues & Hw & Hr & _).
    rewrite Hr. f_equal.
    destruct (get oi "public_key") as [| |b|x|t|l|oo]; try discriminate.
    + rewrite public_key_field_default in Hw. injection Hw as <- _. reflexivity.
    + rewrite public_key_field_string in Hw.
      destruct (bool_decide (t = LIQPAY_PUBLIC_KEY env)) eqn:E; [|discriminate].
      apply bool_decide_eq_true in E. injection Hw as <- _. rewrite E.
      reflexivity.
  - set (env := {| env_LIQPAY_PUBLIC_KEY := None; env_URL := url |}).
    intros Hs.
    destruct (invalid_property_fails (CNBSchema_shape env)
                (<["public_key" := JString s]> o) _ _ (public_key_in_shape env))
      as (issues & Herr & Hincl).
    + rewrite get_insert, public_key_field_string.
      rewrite bool_decide_eq_false_2 by exact Hs. discriminate.
    + exists issues. split; [exact Herr|]. apply Hincl.
      rewrite get_insert, public_key_field_string.
      rewrite bool_decide_eq_false_2 by exact Hs. left. reflexivity.
Qed.

(* ===================================================================== *)
(** ** More theorems at concrete inputs *)
(* ===================================================================== *)

Lemma description_length_checked_witness :
  safeParse (CNBSchema env0)
    (JObject (<["description" := JString (lit "Order #123")]> ∅))
  = success (JObject (<["description" := JString (lit "Order #123")]> defaults0)).
Proof.
  apply (description_length_checked env0 ∅ defaults0 (lit "Order #123")).
  - vm_compute. reflexivity.
  - vm_compute. lia.
Defined.

Lemma unknown_key_ignored_witness :
  safeParse (CNBSchema env0) (JObject (<["order_id" := JString (lit "A-17")]> ∅))
  = success (JObject defaults0).
Proof.
  etransitivity.
  - apply (unknown_key_ignored env0 ∅ "order_id" (JString (lit "A-17"))).
    unfold field_names, user_field_names. cbn [app In].
    intros H. repeat (destruct H as [H|H]; [discriminate H|]). exact H.
  - vm_compute. reflexivity.
Defined.

Lemma null_is_rejected_witness :
  exists issues,
    safeParse (CNBSchema env0) (JObject (<["currency" := JNull]> ∅))
      = error issues /\
    exists i, In i issues /\ issue_path i = ["currency"].
Proof.
  apply (null_is_rejected env0 ∅ "currency").
  right. left. reflexivity.
Defined.

Lemma valid_request_keys_witness :
  is_Some (defaults0 !! "version") <-> In "version" field_names.
Proof.
  apply (valid_request_keys env0 (JObject ∅) defaults0 "version").
  vm_compute. reflexivity.
Defined.

Lemma valid_request_fields_witness :
  (exists x n, defaults0 !! "version" = Some (JNumber x) /\
               integer_value x = Some n /\ 1 <= n <= 3) /\
  (forall field allowed, In (field, allowed) enum_fields ->
     exists s, defaults0 !! field = Some (JString s) /\ In s allowed) /\
  defaults0 !! "public_key" = Some (JString (LIQPAY_PUBLIC_KEY env0)) /\
  (exists s, defaults0 !! "description" = Some (JString s) /\
             (1 <= length s <= 200)%nat) /\
  (exists s, defaults0 !! "subscribe_date_start" = Some (JString s)) /\
  (exists s, defaults0 !! "result_url" = Some (JString s)).
Proof.
  apply (valid_request_fields env0 (JObject ∅) defaults0).
  vm_compute. reflexivity.
Defined.

Lemma validation_idempotent_witness :
  safeParse (CNBSchema env0) (JObject (<["amount" := JNumber (F 42)]> defaults0))
  = success (JObject (<["amount" := JNumber (F 42)]> defaults0)).
Proof.
  apply (validation_idempotent env0
           (JObject (<["amount" := JString (lit "42")]> ∅))).
  vm_compute. reflexivity.
Defined.

Lemma failure_reports_fields_witness :
  [invalid_enum_value [lit "UAH"; lit "USD"; lit "EUR"] (JString (lit "GBP"))
     ["currency"]] <> [] /\
  Forall (fun i => exists key, In key field_names /\ issue_path i = [key])
    [invalid_enum_value [lit "UAH"; lit "USD"; lit "EUR"] (JString (lit "GBP"))
       ["currency"]].
Proof.
  apply (failure_reports_fields env0
           (JObject (<["currency" := JString (lit "GBP")]> ∅))).
  vm_compute. reflexivity.
Defined.

Lemma every_invalid_field_reported_witness :
  incl [custom ["amount"]; custom ["amount"]]
    [custom ["amount"]; custom ["amount"];
     invalid_enum_value [lit "UAH"; lit "USD"; lit "EUR"] (JString (lit "GBP"))
       ["currency"]] /\
  incl [invalid_enum_value [lit "UAH"; lit "USD"; lit "EUR"]
          (JString (lit "GBP")) ["currency"]]
    [custom ["amount"]; custom ["amount"];
     invalid_enum_value [lit "UAH"; lit "USD"; lit "EUR"] (JString (lit "GBP"))
       ["currency"]].
Proof.
  destruct (every_invalid_field_reported env0
              (<["amount" := JString (lit "abc")]>
                 (<["currency" := JString (lit "GBP")]> ∅))
              [custom ["amount"]; custom ["amount"];
               invalid_enum_value [lit "UAH"; lit "USD"; lit "EUR"]
                 (JString (lit "GBP")) ["currency"]])
    as [_ Hall].
  - vm_compute. reflexivity.
  - split.
    + exact (Hall _ _ (amount_in_shape env0)).
    + assert (In ("currency", enum_field PaymentCurrency "UAH")
                (CNBSchema_shape env0)) as Hin
        by (rewrite CNBSchema_shape_eq; right; left; reflexivity).
      exact (Hall _ _ Hin).
Defined.

Lemma UserCNBSchema_agrees_witness :
  exists ru,
    safeParse UserCNBSchema (JObject ∅) = success (JObject ru) /\
    (forall key, In key user_field_names -> ru !! key = defaults0 !! key) /\
    (forall key, ~ In key user_field_names -> ru !! key = None).
Proof.
  apply (proj1 (UserCNBSchema_agrees env0 ∅)).
  vm_compute. reflexivity.
Defined.

Lemma number_schemas_alone_witness :
  safeParse LiqpayAmountSchema JUndefined = success (JNumber (F 20)) /\
  safeParse LiqpayAmountSchema (JString (lit "42"))
    = error [invalid_type (lit "number") t_string []] /\
  safeParse LiqpayAmountSchema (JNumber (F 42)) = success (JNumber (F 42)) /\
  safeParse LiqpayAmountSchema (JNumber (StringToNumber (lit "0.5")))
    = error [invalid_type (lit "integer") t_float []; too_small t_number 1 []].
Proof.
  destruct (number_schemas_alone LiqpayAmountSchema 1 10000 20)
    as (Hdefault & Hstring & Haccept & Hreject).
  - left. reflexivity.
  - split; [exact Hdefault|]. split; [apply Hstring|]. split.
    + apply Haccept. exists 42. split; [vm_compute; reflexivity | lia].
    + apply (Hreject (StringToNumber (lit "0.5"))).
      * vm_compute. reflexivity.
      * intros n Hn. vm_compute in Hn. discriminate Hn.
Defined.

Lemma stringified_number_alone_witness :
  safeParse MaybeStringifiedNumberSchema (JString (lit "-7.5"))
  = success (JNumber (StringToNumber (lit "-7.5"))).
Proof.
  apply (proj1 (proj2 (stringified_number_alone (JString (lit "-7.5"))))).
  - reflexivity.
  - vm_compute. reflexivity.
Defined.

Lemma padded_numeric_string_witness :
  safeParse (CNBSchema env0)
    (JObject (<["amount" := JString (lit " " ++ lit "42" ++ [10%N])]> ∅))
  = safeParse (CNBSchema env0)
      (JObject (<["amount" := JString (lit "42")]> ∅)).
Proof.
  apply (padded_numeric_string env0 "amount" 1 10000 ∅).
  - left. reflexivity.
  - repeat constructor.
  - repeat constructor.
Defined.

Lemma unset_environment_witness :
  documented_defaults [] (lit "undefined") !! "result_url"
    = Some (JString (lit "undefined/donate/thankyou")) /\
  documented_defaults [] (lit "undefined") !! "public_key"
    = Some (JString []) /\
  exists issues,
    safeParse (CNBSchema {| env_LIQPAY_PUBLIC_KEY := None; env_URL := None |})
      (JObject (<["public_key" := JString (lit "sandbox_i00000000")]> ∅))
    = error issues /\
    In (custom ["public_key"]) issues.
Proof.
  destruct (unset_environment None None (JObject ∅) ∅
              (lit "sandbox_i00000000")
              (documented_defaults [] (lit "undefined"))
              (documented_defaults [] (lit "undefined")))
    as (Hurl & Hkey & Hreject).
  split; [|split].
  - apply Hurl. vm_compute. reflexivity.
  - apply Hkey. vm_compute. reflexivity.
  - apply Hreject. discriminate.
Defined.
